(** * Bank2: the account ledger of [backend/backend.py]

    A shallow embedding of [BankBackend], the SQLite-backed ledger of the
    repository, and the properties its specification states about it.

    - The two tables ([customer], [transactions]) are lists of rows in
      insertion order; the [sqlite_sequence] counters of the two
      [AUTOINCREMENT] keys are part of the database.
    - Columns declared [REAL] hold IEEE 754 binary64 values, which is also
      what a Python [float] is: they are Rocq's primitive [float]s.  SQLite
      stores a NaN as [NULL], so [nan] stands for [NULL] in such a column.
    - An amount is a Python [float].  A Python [int] of magnitude up to
      [2^53] is one exactly: it is compared, added and stored as the float
      of the same value.  Account numbers and limits are integers, names and
      the other texts are strings, a PIN is an integer or a string.
    - SQLite binds an integer of 64 bits.  A larger one makes [execute]
      raise [OverflowError]: the three reading methods pass it on, and what
      is stated of them is stated of the integers [sqlite_integer] admits.
    - Every method runs its statements on the connection and ends with
      [commit] or [rollback]; a method is a function from the committed
      database to its return value and the next committed database.
    - [datetime.now().isoformat()] is an input of the two mutating methods.
    - [hashlib.sha256] is implemented (FIPS 180-4) so that digests compute. *)

From Stdlib Require Import ZArith List String Ascii Bool Lia.
From Stdlib Require Import Floats QArith Qpower DecimalString.
From Stdlib Require DecimalPos DecimalZ.
From Stdlib Require Import Sorting.Sorted Sorting.Permutation OrderedTypeEx.
Import ListNotations.

Set Warnings "-inexact-float".

Local Open Scope Z_scope.

(** ** hashlib.sha256 *)

Module Sha256.

Definition mask32 : Z := 0xffffffff.
Definition add32 (x y : Z) : Z := (x + y) mod 2 ^ 32.
Definition not32 (x : Z) : Z := Z.lxor x mask32.
Definition rotr (n x : Z) : Z :=
  Z.lor (Z.shiftr x n) (Z.land (Z.shiftl x (32 - n)) mask32).

Definition Ch (x y z : Z) : Z := Z.lxor (Z.land x y) (Z.land (not32 x) z).
Definition Maj (x y z : Z) : Z :=
  Z.lxor (Z.lxor (Z.land x y) (Z.land x z)) (Z.land y z).
Definition bsig0 (x : Z) : Z := Z.lxor (Z.lxor (rotr 2 x) (rotr 13 x)) (rotr 22 x).
Definition bsig1 (x : Z) : Z := Z.lxor (Z.lxor (rotr 6 x) (rotr 11 x)) (rotr 25 x).
Definition ssig0 (x : Z) : Z := Z.lxor (Z.lxor (rotr 7 x) (rotr 18 x)) (Z.shiftr x 3).
Definition ssig1 (x : Z) : Z := Z.lxor (Z.lxor (rotr 17 x) (rotr 19 x)) (Z.shiftr x 10).

(** The constants of FIPS 180-4 are defined from the first primes: the first
    32 bits of the fractional part of the cube root of each of the first 64
    for [K], of the square root of each of the first 8 for [H0]. *)
Definition is_prime (n : Z) : bool :=
  forallb (fun d => negb (n mod Z.of_nat d =? 0)) (seq 2 (Z.to_nat n - 2)).

Definition primes : list Z :=
  Eval vm_compute in filter is_prime (map Z.of_nat (seq 2 310)).

Fixpoint cube_root_bits (bits : nat) (n r : Z) : Z :=
  match bits with
  | O => r
  | S b =>
      let r' := r + 2 ^ Z.of_nat b in
      if r' * r' * r' <=? n then cube_root_bits b n r' else cube_root_bits b n r
  end.

Definition cube_root (n : Z) : Z := cube_root_bits 40 n 0.

Definition K : list Z :=
  Eval vm_compute in map (fun p => cube_root (p * 2 ^ 96) mod 2 ^ 32) primes.

(** The eight working words [a .. h]. *)
Record words8 := W8 { wa : Z; wb : Z; wc : Z; wd : Z; we : Z; wf : Z; wg : Z; wh : Z }.

Definition root_word (i : nat) : Z := Z.sqrt (nth i primes 0 * 2 ^ 64) mod 2 ^ 32.

Definition H0 : words8 :=
  Eval vm_compute in
    W8 (root_word 0) (root_word 1) (root_word 2) (root_word 3)
       (root_word 4) (root_word 5) (root_word 6) (root_word 7).

(** Padding: a [0x80] byte, zeros up to 56 modulo 64, then the bit length
    of the message as a 64-bit big-endian integer. *)
Definition be_bytes (n : nat) (x : Z) : list Z :=
  map (fun i => Z.land (Z.shiftr x (8 * Z.of_nat i)) 0xff) (rev (seq 0 n)).

Definition pad (msg : list Z) : list Z :=
  let len := Z.of_nat (List.length msg) in
  let zeros := Z.to_nat ((55 - len) mod 64) in
  msg ++ [0x80] ++ repeat 0 zeros ++ be_bytes 8 (8 * len).

Fixpoint be_words (n : nat) (bytes : list Z) : list Z :=
  match n, bytes with
  | S n', b0 :: b1 :: b2 :: b3 :: rest =>
      (((b0 * 256 + b1) * 256 + b2) * 256 + b3) :: be_words n' rest
  | _, _ => []
  end.

(** The message schedule, most recent word first while it is built. *)
Fixpoint schedule (n : nat) (w : list Z) : list Z :=
  match n with
  | O => w
  | S n' =>
      let wt := add32 (add32 (add32 (ssig1 (nth 1 w 0)) (nth 6 w 0))
                             (ssig0 (nth 14 w 0))) (nth 15 w 0) in
      schedule n' (wt :: w)
  end.

Definition round (s : words8) (kw : Z * Z) : words8 :=
  let '(k, w) := kw in
  let t1 := add32 (add32 (add32 (add32 (wh s) (bsig1 (we s))) (Ch (we s) (wf s) (wg s))) k) w in
  let t2 := add32 (bsig0 (wa s)) (Maj (wa s) (wb s) (wc s)) in
  W8 (add32 t1 t2) (wa s) (wb s) (wc s) (add32 (wd s) t1) (we s) (wf s) (wg s).

Definition compress (h : words8) (block : list Z) : words8 :=
  let w := rev (schedule 48 (rev (be_words 16 block))) in
  let s := fold_left round (combine K w) h in
  W8 (add32 (wa h) (wa s)) (add32 (wb h) (wb s)) (add32 (wc h) (wc s))
     (add32 (wd h) (wd s)) (add32 (we h) (we s)) (add32 (wf h) (wf s))
     (add32 (wg h) (wg s)) (add32 (wh h) (wh s)).

Fixpoint blocks (n : nat) (bytes : list Z) : list (list Z) :=
  match n with
  | O => []
  | S n' => firstn 64 bytes :: blocks n' (skipn 64 bytes)
  end.

Definition digest (msg : list Z) : words8 :=
  let p := pad msg in
  fold_left compress (blocks (List.length p / 64) p) H0.

(** [hexdigest]: every word as eight lower-case hexadecimal digits. *)
Definition hex_digit (x : Z) : ascii :=
  if x <? 10 then ascii_of_N (Z.to_N (48 + x)) else ascii_of_N (Z.to_N (87 + x)).

Definition hex32 (x : Z) (rest : string) : string :=
  String (hex_digit (Z.land (Z.shiftr x 28) 15))
 (String (hex_digit (Z.land (Z.shiftr x 24) 15))
 (String (hex_digit (Z.land (Z.shiftr x 20) 15))
 (String (hex_digit (Z.land (Z.shiftr x 16) 15))
 (String (hex_digit (Z.land (Z.shiftr x 12) 15))
 (String (hex_digit (Z.land (Z.shiftr x 8) 15))
 (String (hex_digit (Z.land (Z.shiftr x 4) 15))
 (String (hex_digit (Z.land x 15)) rest))))))).

Definition hex_of_words (s : words8) : string :=
  hex32 (wa s) (hex32 (wb s) (hex32 (wc s) (hex32 (wd s)
 (hex32 (we s) (hex32 (wf s) (hex32 (wg s) (hex32 (wh s) EmptyString))))))).

(** A Python [str] is held as the bytes of its UTF-8 encoding, so
    [s.encode()] reads the characters of the Rocq string as bytes. *)
Definition encode (s : string) : list Z :=
  map (fun c => Z.of_N (N_of_ascii c)) (list_ascii_of_string s).

Definition hexdigest (s : string) : string := hex_of_words (digest (encode s)).

End Sha256.

(** ** Python values *)

(** [create_account] and [authenticate] pass the PIN through [str]: the demo
    of the module calls them with the integer [1234], a form would hand them
    the text. *)
Inductive pin_value :=
  | PinInt (n : Z)
  | PinStr (s : string).

Definition str (pin : pin_value) : string :=
  match pin with
  | PinInt n => NilZero.string_of_int (Z.to_int n)
  | PinStr s => s
  end.

(** ** The tables of [init_db] *)

Module Customer.
Record row := Row {
  account_no : Z;
  name : string;
  mobile_no : string;
  email : string;
  pin_hash : string;
  action_type : string;
  balance : float }.
End Customer.

Module Transactions.
Record row := Row {
  id : Z;
  account_no : Z;
  action_type : string;
  amount : float;
  balance_after : float;
  date_time : string }.
End Transactions.

Record database := Database {
  customer : list Customer.row;
  transactions : list Transactions.row;
  seq_customer : Z;
  seq_transactions : Z }.

(** [init_db] on a new file: both tables exist and are empty.  On a file
    that already holds them, [CREATE TABLE IF NOT EXISTS] changes nothing. *)
Definition init_db : database := Database [] [] 0 0.

(** ** The SQL statements the methods execute *)

(** The integers [execute] can bind to a [?]: SQLite's [INTEGER] is a signed
    64-bit number, and [sqlite3] raises [OverflowError] for a Python [int]
    outside it.  [deposit] and [withdraw] catch it ([except Exception]) and
    return [None]; [authenticate], [get_balance] and
    [get_transaction_history] have no [try], so the error reaches their
    caller.  What is stated of these three below is stated of the numbers
    they can bind. *)
Definition sqlite_integer (n : Z) : Prop := - 2 ^ 63 <= n < 2 ^ 63.

(** [INTEGER PRIMARY KEY AUTOINCREMENT]: one more than the largest key the
    table holds or has ever held. *)
Definition next_rowid (seq : Z) (keys : list Z) : Z :=
  Z.max seq (fold_right Z.max 0 keys) + 1.

(** [SELECT ... FROM customer WHERE account_no = ?] with [fetchone()]. *)
Definition select_customer (db : database) (account_no : Z) : option Customer.row :=
  find (fun r => Customer.account_no r =? account_no) (customer db).

Definition select_balance (db : database) (account_no : Z) : option float :=
  option_map Customer.balance (select_customer db account_no).

Definition select_pin_hash (db : database) (account_no : Z) : option string :=
  option_map Customer.pin_hash (select_customer db account_no).

(** [UPDATE customer SET balance = ? WHERE account_no = ?]. *)
Definition set_balance (new_balance : float) (r : Customer.row) : Customer.row :=
  Customer.Row (Customer.account_no r) (Customer.name r) (Customer.mobile_no r)
               (Customer.email r) (Customer.pin_hash r) (Customer.action_type r)
               new_balance.

Definition update_balance (db : database) (new_balance : float) (account_no : Z) : database :=
  Database
    (map (fun r => if Customer.account_no r =? account_no
                   then set_balance new_balance r else r) (customer db))
    (transactions db) (seq_customer db) (seq_transactions db).

(** [INSERT INTO customer (...) VALUES (?, ?, ?, ?, ?, 0.00)]: [None] is
    [sqlite3.IntegrityError], raised by the two [UNIQUE] columns and by the
    [CHECK] on [action_type]; otherwise the new database and [lastrowid]. *)
Definition check_customer_action_type (action_type : string) : bool :=
  (action_type =? "Savings")%string || (action_type =? "Current")%string.

Definition insert_customer (db : database)
    (name mobile_no email pin_hash action_type : string) : option (database * Z) :=
  if existsb (fun r => (Customer.mobile_no r =? mobile_no)%string) (customer db) then None
  else if existsb (fun r => (Customer.email r =? email)%string) (customer db) then None
  else if negb (check_customer_action_type action_type) then None
  else
    let rowid := next_rowid (seq_customer db) (map Customer.account_no (customer db)) in
    Some (Database
            (customer db ++
               [Customer.Row rowid name mobile_no email pin_hash action_type 0%float])
            (transactions db) rowid (seq_transactions db),
          rowid).

(** [INSERT INTO transactions (...) VALUES (?, 'Credit' | 'Debit', ?, ?, ?)]:
    a NaN parameter is bound as [NULL] and both [REAL] columns are
    [NOT NULL], so it raises [sqlite3.IntegrityError] ([None]).  The foreign
    key is declared but SQLite does not enforce it on a connection that has
    not switched [PRAGMA foreign_keys] on. *)
Definition check_transaction_action_type (action_type : string) : bool :=
  (action_type =? "Credit")%string || (action_type =? "Debit")%string.

Definition insert_transaction (db : database) (account_no : Z) (action_type : string)
    (amount balance_after : float) (date_time : string) : option database :=
  if negb (check_transaction_action_type action_type) then None
  else if is_nan amount || is_nan balance_after then None
  else
    let rowid := next_rowid (seq_transactions db) (map Transactions.id (transactions db)) in
    Some (Database
            (customer db)
            (transactions db ++
               [Transactions.Row rowid account_no action_type amount balance_after date_time])
            (seq_customer db) rowid).

(** ** BankBackend *)

(** [create_account(name, mobile_no, email, pin, action_type='Savings')]:
    the account number on success (the insert is committed), [None] after
    an [IntegrityError] (the connection is rolled back). *)
Definition create_account (db : database) (name mobile_no email : string)
    (pin : pin_value) (action_type : option string) : option Z * database :=
  let action_type := match action_type with Some a => a | None => "Savings"%string end in
  let pin_hash := Sha256.hexdigest (str pin) in
  match insert_customer db name mobile_no email pin_hash action_type with
  | Some (db', account_no) => (Some account_no, db')
  | None => (None, db)
  end.

(** [authenticate(account_no, pin)], for an [account_no] that is a
    [sqlite_integer]: [False] when [fetchone()] finds no row, otherwise
    whether the stored text equals the digest of [str(pin)]. *)
Definition authenticate (db : database) (account_no : Z) (pin : pin_value) : bool :=
  match select_pin_hash db account_no with
  | None => false
  | Some stored =>
      let expected_hash := Sha256.hexdigest (str pin) in
      (stored =? expected_hash)%string
  end.

(** [get_balance(account_no)], for an [account_no] that is a
    [sqlite_integer]: [result[0] if result else None].  The column [balance]
    may hold [NULL] (it is [REAL DEFAULT 0.00], not [NOT NULL], and a NaN is
    stored as [NULL]); [result[0]] is then [None], although the row exists. *)
Definition get_balance (db : database) (account_no : Z) : option float :=
  match select_balance db account_no with
  | Some balance => if is_nan balance then None else Some balance
  | None => None
  end.

(** [deposit(account_no, amount)]; [date_time] is what
    [datetime.now().isoformat()] returns during the call.  Every [return
    None] leaves the committed database as it was: the first two happen
    before any write, the last one is the [except] branch, which rolls the
    [UPDATE] back. *)
Definition deposit (date_time : string) (db : database) (account_no : Z) (amount : float)
    : option float * database :=
  if (amount <=? 0)%float then (None, db)
  else
    match select_balance db account_no with
    | None => (None, db)
    | Some result =>
        let new_balance := (result + amount)%float in
        let db1 := update_balance db new_balance account_no in
        match insert_transaction db1 account_no "Credit" amount new_balance date_time with
        | Some db2 => (Some new_balance, db2)
        | None => (None, db)
        end
    end.

(** [withdraw(account_no, amount)]. *)
Definition withdraw (date_time : string) (db : database) (account_no : Z) (amount : float)
    : option float * database :=
  if (amount <=? 0)%float then (None, db)
  else
    match select_balance db account_no with
    | None => (None, db)
    | Some result =>
        if (result <? amount)%float then (None, db)
        else
          let new_balance := (result - amount)%float in
          let db1 := update_balance db new_balance account_no in
          match insert_transaction db1 account_no "Debit" amount new_balance date_time with
          | Some db2 => (Some new_balance, db2)
          | None => (None, db)
          end
    end.

(** [get_transaction_history(account_no, limit=10)], for an [account_no]
    and a [limit] that are [sqlite_integer]s: the rows the [SELECT] yields,
    each as the dictionary of lines 168-171. *)
Module History.
Record entry := Entry {
  id : Z;
  action_type : string;
  amount : float;
  balance_after : float;
  date_time : string }.
End History.

(** [ORDER BY date_time DESC] on a [TEXT] column: byte-wise comparison.  SQL
    leaves the order of rows with equal keys open; this insertion keeps them
    in table order, and nothing stated below depends on that choice. *)
Fixpoint insert_desc (r : Transactions.row) (sorted : list Transactions.row)
    : list Transactions.row :=
  match sorted with
  | [] => [r]
  | x :: rest =>
      if (Transactions.date_time x <=? Transactions.date_time r)%string
      then r :: sorted
      else x :: insert_desc r rest
  end.

Definition order_by_date_time_desc (rows : list Transactions.row) : list Transactions.row :=
  fold_right insert_desc [] rows.

(** [LIMIT ?]: a negative bound means no bound. *)
Definition sql_limit {A : Type} (limit : Z) (rows : list A) : list A :=
  if limit <? 0 then rows else firstn (Z.to_nat limit) rows.

Definition select_history (db : database) (account_no limit : Z) : list Transactions.row :=
  sql_limit limit
    (order_by_date_time_desc
       (filter (fun t => Transactions.account_no t =? account_no) (transactions db))).

Definition entry_of_row (row : Transactions.row) : History.entry :=
  History.Entry (Transactions.id row) (Transactions.action_type row)
                (Transactions.amount row) (Transactions.balance_after row)
                (Transactions.date_time row).

Definition get_transaction_history (db : database) (account_no : Z) (limit : option Z)
    : list History.entry :=
  let limit := match limit with Some n => n | None => 10 end in
  map entry_of_row (select_history db account_no limit).

(** ** Calls on a backend *)

Inductive call :=
  | CreateAccount (name mobile_no email : string) (pin : pin_value) (action_type : option string)
  | Authenticate (account_no : Z) (pin : pin_value)
  | GetBalance (account_no : Z)
  | Deposit (date_time : string) (account_no : Z) (amount : float)
  | Withdraw (date_time : string) (account_no : Z) (amount : float)
  | GetHistory (account_no : Z) (limit : option Z).

Inductive answer :=
  | AccountNo (r : option Z)
  | Authenticated (r : bool)
  | Balance (r : option float)
  | Entries (r : list History.entry).

Definition perform (db : database) (c : call) : answer * database :=
  match c with
  | CreateAccount name mobile_no email pin action_type =>
      let '(r, db') := create_account db name mobile_no email pin action_type in
      (AccountNo r, db')
  | Authenticate account_no pin => (Authenticated (authenticate db account_no pin), db)
  | GetBalance account_no => (Balance (get_balance db account_no), db)
  | Deposit date_time account_no amount =>
      let '(r, db') := deposit date_time db account_no amount in (Balance r, db')
  | Withdraw date_time account_no amount =>
      let '(r, db') := withdraw date_time db account_no amount in (Balance r, db')
  | GetHistory account_no limit => (Entries (get_transaction_history db account_no limit), db)
  end.

Definition run (db : database) (calls : list call) : database :=
  fold_left (fun d c => snd (perform d c)) calls db.

(** The answers a list of calls gets, in order. *)
Fixpoint answers (db : database) (calls : list call) : list answer :=
  match calls with
  | [] => []
  | c :: rest => fst (perform db c) :: answers (snd (perform db c)) rest
  end.

(** The session of the module's [__main__] block on a new database file,
    followed by the overdraft of the specification's scenario.  The amounts
    [1000] and [200] are Python integers there; added to a [REAL] balance
    and stored in a [REAL] column they are the floats of the same value. *)
Definition demo : list call :=
  [ CreateAccount "John Doe" "1234567890" "john@example.com" (PinInt 1234) None;
    Authenticate 1 (PinInt 1234);
    Deposit "2024-05-01T09:30:00.000001" 1 1000%float;
    Withdraw "2024-05-01T09:30:00.000417" 1 200%float;
    GetBalance 1;
    GetHistory 1 None;
    Withdraw "2024-05-01T09:30:00.001023" 1 10000%float ].

Definition john_doe (balance : float) : Customer.row :=
  Customer.Row 1 "John Doe" "1234567890" "john@example.com"
    "03ac674216f3e15c761ee1a5e255f067953623c8b388b4459e13f978d7c846f4"
    "Savings" balance.

(** A session whose amounts are not binary64 values: ten cents in, five
    cents out, twenty cents in. *)
Definition cents : list call :=
  [ CreateAccount "John Doe" "1234567890" "john@example.com" (PinInt 1234) None;
    Deposit "2024-05-01T09:30:00.000001" 1 0.1%float;
    Withdraw "2024-05-01T09:30:00.000417" 1 0.05%float;
    Deposit "2024-05-01T09:30:00.001023" 1 0.2%float ].

(** Thirty cents in two deposits. *)
Definition thirty_cents : list call :=
  [ CreateAccount "John Doe" "1234567890" "john@example.com" (PinInt 1234) None;
    Deposit "2024-05-01T09:30:00.000001" 1 0.1%float;
    Deposit "2024-05-01T09:30:00.000417" 1 0.2%float ].

(** ** The ledger of an account *)

Definition ledger (db : database) (account_no : Z) : list Transactions.row :=
  filter (fun t => Transactions.account_no t =? account_no) (transactions db).

Definition apply_record (balance : float) (t : Transactions.row) : float :=
  if (Transactions.action_type t =? "Credit")%string
  then (balance + Transactions.amount t)%float
  else if (Transactions.action_type t =? "Debit")%string
  then (balance - Transactions.amount t)%float
  else balance.

Definition replay (records : list Transactions.row) : float :=
  fold_left apply_record records 0%float.

(** The regrouped total: what was credited minus what was debited, summed
    as Python's [sum] does (left to right, from [0]) in binary64, and summed
    exactly over the rationals. *)
Definition amounts_of (action_type : string) (records : list Transactions.row) : list float :=
  map Transactions.amount
      (filter (fun t => (Transactions.action_type t =? action_type)%string) records).

Definition float_sum (xs : list float) : float := fold_left PrimFloat.add xs 0%float.

Definition credits_minus_debits (records : list Transactions.row) : float :=
  (float_sum (amounts_of "Credit" records) - float_sum (amounts_of "Debit" records))%float.

(** ** Binary64 values *)

Module Binary64.

Definition SFzero : spec_float := S754_zero false.

(** The sign of a number that is not a NaN. *)
Definition has_sign (s : bool) (x : spec_float) : Prop :=
  match x with
  | S754_zero s' | S754_infinity s' | S754_finite s' _ _ => s' = s
  | S754_nan => False
  end.

(** The mantissa of a finite number once both operands of an addition, a
    subtraction or a comparison have the exponent [e']. *)
Definition aligned (s : bool) (m : positive) (e e' : Z) : Z :=
  cond_Zopp s (Zpos (fst (shl_align m e e'))).

Definition nonneg (f : float) : Prop := (0 <=? f)%float = true.

Definition finite (f : float) : bool :=
  match Prim2SF f with
  | S754_zero _ | S754_finite _ _ _ => true
  | _ => false
  end.

(** The rational a finite float denotes ([0] for the others). *)
Definition SFexact (x : spec_float) : Q :=
  match x with
  | S754_finite s m e => (inject_Z (cond_Zopp s (Zpos m)) * 2 ^ e)%Q
  | _ => 0%Q
  end.

Definition exact_value (f : float) : Q := SFexact (Prim2SF f).

End Binary64.

Definition exact_sum (xs : list float) : Q :=
  fold_right Qplus 0%Q (map Binary64.exact_value xs).

Definition exact_credits_minus_debits (records : list Transactions.row) : Q :=
  (exact_sum (amounts_of "Credit" records) - exact_sum (amounts_of "Debit" records))%Q.

(** ** Invariants of the databases a backend reaches *)

(** Every stored balance is what its ledger replays to. *)
Definition replays (db : database) : Prop :=
  forall r, In r (customer db) ->
    replay (ledger db (Customer.account_no r)) = Customer.balance r.

(** No stored balance is negative (or [NULL]). *)
Definition balances_nonneg (db : database) : Prop :=
  forall r, In r (customer db) -> Binary64.nonneg (Customer.balance r).

(** Every transaction belongs to an account of the [customer] table. *)
Definition owned (db : database) : Prop :=
  forall t, In t (transactions db) ->
    In (Transactions.account_no t) (map Customer.account_no (customer db)).

(** Keys are unique, and transactions are stored in the order of their keys. *)
Definition keyed (db : database) : Prop :=
  NoDup (map Customer.account_no (customer db))
  /\ StronglySorted Z.lt (map Transactions.id (transactions db)).

(** The order of a history: [a] may come before [b] when [b] is not newer. *)
Definition newest_first (a b : Transactions.row) : Prop :=
  (Transactions.date_time b <=? Transactions.date_time a)%string = true.

Definition consistent (db : database) : Prop :=
  replays db /\ balances_nonneg db /\ owned db /\ keyed db.

(** ** Further invariants *)

(** The balances a ledger runs through: after its first record, after its
    second, and so on. *)
Fixpoint running_from (balance : float) (records : list Transactions.row) : list float :=
  match records with
  | [] => []
  | t :: rest => apply_record balance t :: running_from (apply_record balance t) rest
  end.

Definition running_balances (records : list Transactions.row) : list float :=
  running_from 0%float records.

(** Every [balance_after] is the balance right after its record. *)
Definition snapshots (db : database) : Prop :=
  forall account_no,
    map Transactions.balance_after (ledger db account_no)
    = running_balances (ledger db account_no).

(** What [deposit] and [withdraw] write: a direction, an amount above zero
    and a balance that is not negative. *)
Definition well_formed_record (t : Transactions.row) : Prop :=
  (Transactions.action_type t = "Credit"%string
   \/ Transactions.action_type t = "Debit"%string)
  /\ (0 <? Transactions.amount t)%float = true
  /\ (0 <=? Transactions.balance_after t)%float = true.

(** The two [UNIQUE] columns hold no value twice. *)
Definition unique_identities (db : database) : Prop :=
  NoDup (map Customer.mobile_no (customer db))
  /\ NoDup (map Customer.email (customer db)).

(** The keys [1 .. n]. *)
Definition keys_upto (n : nat) : list Z := map Z.of_nat (seq 1 n).

(** Both tables are numbered from [1] without a gap, and each counter is the
    last key handed out. *)
Definition consecutive_keys (db : database) : Prop :=
  map Customer.account_no (customer db) = keys_upto (List.length (customer db))
  /\ seq_customer db = Z.of_nat (List.length (customer db))
  /\ map Transactions.id (transactions db) = keys_upto (List.length (transactions db))
  /\ seq_transactions db = Z.of_nat (List.length (transactions db)).

(** No stored balance is [NULL]. *)
Definition balances_not_null (db : database) : Prop :=
  forall r, In r (customer db) -> is_nan (Customer.balance r) = false.


(** What a successful [deposit] or [withdraw] did to get from [db] to [db']. *)
Definition posts (db db' : database) (account_no : Z) (action_type : string)
    (amount result new_balance : float) (date_time : string) : Prop :=
  select_balance db account_no = Some result
  /\ insert_transaction (update_balance db new_balance account_no)
       account_no action_type amount new_balance date_time = Some db'
  /\ (amount <=? 0)%float = false
  /\ ((action_type = "Credit"%string /\ new_balance = (result + amount)%float)
      \/ (action_type = "Debit"%string /\ new_balance = (result - amount)%float
          /\ (result <? amount)%float = false)).

(** The demo session followed by the opening of a second account. *)
Definition two_accounts : list call :=
  demo ++ [ CreateAccount "Jane Roe" "5550100" "jane@example.com" (PinStr "1234")
              (Some "Current"%string) ].

(** The whole history of an account, newest first. *)
Definition full_history (db : database) (account_no : Z) : list History.entry :=
  get_transaction_history db account_no (Some (-1)).

(** ** Results *)

Example sha256_constants :
  List.length Sha256.primes = 64%nat
  /\ nth 0 Sha256.K 0 = 0x428a2f98 /\ nth 63 Sha256.K 0 = 0xc67178f2
  /\ Sha256.wa Sha256.H0 = 0x6a09e667 /\ Sha256.wh Sha256.H0 = 0x5be0cd19.
Proof. repeat split. Qed.


Example sha256_empty :
  Sha256.hexdigest ""
  = "e3b0c44298fc1c149afbf4c8996fb92427ae41e4649b934ca495991b7852b855"%string.
Proof. vm_compute. reflexivity. Qed.

Example sha256_two_blocks :
  Sha256.hexdigest "aaaaaaaaaaaaaaaaaaaaaaaaaaaaaaaaaaaaaaaaaaaaaaaaaaaaaaaa"
  = "b35439a4ac6f0948b6d6f9e3c6af0f5f590ce20f1bde7090ef7970686ec6738a"%string.
Proof. vm_compute. reflexivity. Qed.

(** ** Facts on binary64 arithmetic *)

Import Binary64.

Lemma Prim2SF_zero : Prim2SF 0%float = SFzero.
Proof. reflexivity. Qed.

Lemma SFcompare_refl (x : spec_float) :
  x <> S754_nan -> SFcompare x x = Some Eq.
Proof.
  destruct x as [s|s| |s m e]; try congruence; intros _; simpl.
  - reflexivity.
  - destruct s; reflexivity.
  - rewrite Z.compare_refl, Pos.compare_cont_refl. destruct s; reflexivity.
Qed.

Lemma is_nan_spec (f : float) : is_nan f = true <-> Prim2SF f = S754_nan.
Proof.
  unfold is_nan. rewrite FloatAxioms.eqb_spec, negb_true_iff. unfold SFeqb. split.
  - intros H. destruct (Prim2SF f) as [s|s| |s m e] eqn:E; try reflexivity.
    all: rewrite SFcompare_refl in H by congruence; discriminate.
  - intros ->. reflexivity.
Qed.

Lemma is_nan_false (f : float) : is_nan f = false <-> Prim2SF f <> S754_nan.
Proof.
  rewrite <- is_nan_spec. destruct (is_nan f); split; congruence.
Qed.

(** Rounding a non-negative mantissa keeps the sign it is given. *)
Lemma shr_1_nonneg mrs : 0 <= shr_m mrs -> 0 <= shr_m (shr_1 mrs).
Proof.
  destruct mrs as [m r s]. simpl. intros H.
  destruct m as [|p|p]; [simpl; lia| |lia].
  destruct p; simpl; lia.
Qed.

Lemma iter_pos_shr_1_nonneg n : forall mrs,
  0 <= shr_m mrs -> 0 <= shr_m (SpecFloat.iter_pos shr_1 n mrs).
Proof.
  induction n; intros mrs H; simpl; auto using shr_1_nonneg.
Qed.

Lemma shr_fexp_nonneg m e l :
  0 <= m -> 0 <= shr_m (fst (shr_fexp prec emax m e l)).
Proof.
  intros H. unfold shr_fexp, shr.
  assert (H0 : 0 <= shr_m (shr_record_of_loc m l)).
  { destruct l as [|[ | | ]]; simpl; exact H. }
  destruct (fexp prec emax (Zdigits2 m + e) - e); simpl; auto.
  apply iter_pos_shr_1_nonneg; exact H0.
Qed.

Lemma round_nearest_even_nonneg m l : 0 <= m -> 0 <= round_nearest_even m l.
Proof.
  intros H. destruct l as [|[ | | ]]; simpl; try lia.
  destruct (Z.even m); lia.
Qed.

Lemma binary_round_aux_sign s m e l :
  0 <= m -> has_sign s (binary_round_aux prec emax s m e l).
Proof.
  intros H. unfold binary_round_aux.
  pose proof (shr_fexp_nonneg m e l H) as H1.
  destruct (shr_fexp prec emax m e l) as [mrs' e'] eqn:E1. simpl in H1.
  pose proof (shr_fexp_nonneg _ e' loc_Exact
                (round_nearest_even_nonneg _ (loc_of_shr_record mrs') H1)) as H2.
  destruct (shr_fexp prec emax _ e' loc_Exact) as [mrs'' e''] eqn:E2. simpl in H2.
  destruct (shr_m mrs'') as [|p|p]; simpl; [reflexivity| |lia].
  match goal with |- context [if ?c then _ else _] => destruct c end; reflexivity.
Qed.

Lemma binary_round_sign s m e : has_sign s (binary_round prec emax s m e).
Proof.
  unfold binary_round.
  destruct (shl_align m e _) as [mz ez].
  apply binary_round_aux_sign. lia.
Qed.

Lemma binary_normalize_nonneg m e :
  0 <= m -> has_sign false (binary_normalize prec emax m e false).
Proof.
  intros H. destruct m as [|p|p]; simpl; [reflexivity| |lia].
  apply binary_round_sign.
Qed.

Lemma has_sign_false_leb x : has_sign false x -> SFleb SFzero x = true.
Proof.
  destruct x as [s|s| |s m e]; simpl; try tauto; intros ->; reflexivity.
Qed.


(** Canonical mantissas: the comparison of [SFcompare], which looks at the
    exponents first, is the comparison of the values. *)
Lemma digits2_pos_size m : digits2_pos m = Pos.size m.
Proof. induction m; simpl; congruence. Qed.

Lemma digits2_pos_gt m : Zpos m < 2 ^ Zpos (digits2_pos m).
Proof.
  rewrite digits2_pos_size.
  pose proof (Pos.size_gt m) as H.
  apply Pos2Z.pos_lt_pos in H. rewrite Pos2Z.inj_pow in H. exact H.
Qed.

Lemma digits2_pos_le m : 2 ^ Zpos (digits2_pos m) <= 2 * Zpos m.
Proof.
  rewrite digits2_pos_size.
  pose proof (Pos.size_le m) as H.
  apply Pos2Z.pos_le_pos in H. rewrite Pos2Z.inj_pow in H. exact H.
Qed.

Lemma bounded_canonical m e :
  bounded prec emax m e = true ->
  -1074 <= e <= 971 /\ Zpos m < 2 ^ 53 /\ (-1074 < e -> 2 ^ 52 <= Zpos m).
Proof.
  unfold bounded, canonical_mantissa, fexp, SpecFloat.emin, prec, emax.
  rewrite andb_true_iff, Z.eqb_eq, Z.leb_le. intros [Hc He].
  pose proof (digits2_pos_gt m) as Hgt.
  pose proof (digits2_pos_le m) as Hle.
  assert (Hd : Zpos (digits2_pos m) <= 53) by lia.
  repeat split; try lia.
  - apply Z.lt_le_trans with (1 := Hgt). apply Z.pow_le_mono_r; lia.
  - intros Hmin. assert (Zpos (digits2_pos m) = 53) as Hd' by lia.
    rewrite Hd' in Hle. change (2 ^ 53) with (2 * 2 ^ 52) in Hle. lia.
Qed.

Lemma shl_align_value m e e' :
  e' <= e -> Zpos (fst (shl_align m e e')) = Zpos m * 2 ^ (e - e').
Proof.
  intros H. unfold shl_align.
  destruct (e' - e) as [|d|d] eqn:E; simpl fst.
  - replace (e - e') with 0 by lia. lia.
  - lia.
  - replace (e - e') with (Zpos d) by lia.
    change (Pos.iter xO m d) with (shift_pos d m).
    rewrite shift_pos_correct. change (Z.pow_pos 2 d) with (2 ^ Zpos d). lia.
Qed.

Lemma magnitude_compare mx ex my ey :
  bounded prec emax mx ex = true -> bounded prec emax my ey = true ->
  match ex ?= ey with
  | Lt => Lt
  | Gt => Gt
  | Eq => Pos.compare_cont Eq mx my
  end = (aligned false mx ex (Z.min ex ey) ?= aligned false my ey (Z.min ex ey)).
Proof.
  intros Hx Hy.
  apply bounded_canonical in Hx, Hy.
  destruct Hx as (Hex & Hmx & Hnx), Hy as (Hey & Hmy & Hny).
  unfold aligned, cond_Zopp.
  rewrite !shl_align_value by lia.
  destruct (Z.compare_spec ex ey) as [E|E|E].
  - subst ey. rewrite Z.min_id, Z.sub_diag, !Z.mul_1_r. reflexivity.
  - rewrite Z.min_l, Z.sub_diag, Z.mul_1_r by lia. symmetry. apply Z.compare_lt_iff.
    assert (2 ^ 1 <= 2 ^ (ey - ex)) by (apply Z.pow_le_mono_r; lia).
    change (2 ^ 53) with (2 * 2 ^ 52) in Hmx. nia.
  - rewrite Z.min_r, Z.sub_diag, Z.mul_1_r by lia. symmetry. apply Z.compare_gt_iff.
    assert (2 ^ 1 <= 2 ^ (ex - ey)) by (apply Z.pow_le_mono_r; lia).
    change (2 ^ 53) with (2 * 2 ^ 52) in Hmy. nia.
Qed.

Lemma SFcompare_finite sx mx ex sy my ey :
  bounded prec emax mx ex = true -> bounded prec emax my ey = true ->
  SFcompare (S754_finite sx mx ex) (S754_finite sy my ey)
  = Some (aligned sx mx ex (Z.min ex ey) ?= aligned sy my ey (Z.min ex ey)).
Proof.
  intros Hx Hy. pose proof (magnitude_compare mx ex my ey Hx Hy) as H.
  unfold SFcompare. f_equal. unfold aligned, cond_Zopp in *. destruct sx, sy.
  - rewrite Z.compare_opp.
    rewrite (Z.compare_antisym (Zpos (fst (shl_align mx ex (Z.min ex ey))))), <- H.
    destruct (ex ?= ey); reflexivity.
  - symmetry. apply Z.compare_lt_iff. lia.
  - symmetry. apply Z.compare_gt_iff. lia.
  - exact H.
Qed.


Lemma SFadd_finite sx mx ex sy my ey :
  SFadd prec emax (S754_finite sx mx ex) (S754_finite sy my ey)
  = binary_normalize prec emax
      (aligned sx mx ex (Z.min ex ey) + aligned sy my ey (Z.min ex ey))
      (Z.min ex ey) false.
Proof. reflexivity. Qed.

Lemma SFsub_finite sx mx ex sy my ey :
  SFsub prec emax (S754_finite sx mx ex) (S754_finite sy my ey)
  = binary_normalize prec emax
      (aligned sx mx ex (Z.min ex ey) - aligned sy my ey (Z.min ex ey))
      (Z.min ex ey) false.
Proof. reflexivity. Qed.

Lemma aligned_pos m e e' : 0 < aligned false m e e'.
Proof. unfold aligned, cond_Zopp. lia. Qed.

Lemma aligned_neg m e e' : aligned true m e e' < 0.
Proof. unfold aligned, cond_Zopp. lia. Qed.

(** A sum of a non-negative and a positive number is not negative. *)
Lemma SFadd_nonneg x y :
  SFleb SFzero x = true -> SFleb y SFzero = false ->
  SFadd prec emax x y <> S754_nan ->
  SFleb SFzero (SFadd prec emax x y) = true.
Proof.
  intros Hx Hy Hn.
  destruct x as [sx|sx| |sx mx ex]; try discriminate Hx;
    destruct y as [sy|sy| |sy my ey]; try discriminate Hy;
    try (exfalso; apply Hn; reflexivity).
  all: try (destruct sx; try discriminate Hx).
  all: try (destruct sy; try discriminate Hy).
  all: try reflexivity.
  rewrite SFadd_finite. apply has_sign_false_leb, binary_normalize_nonneg.
  pose proof (aligned_pos mx ex (Z.min ex ey)).
  pose proof (aligned_pos my ey (Z.min ex ey)). lia.
Qed.

Lemma SFadd_not_nan x y :
  SFleb SFzero x = true -> SFltb SFzero y = true ->
  SFadd prec emax x y <> S754_nan.
Proof.
  intros Hx Hy.
  destruct x as [sx|sx| |sx mx ex]; try discriminate Hx;
    destruct y as [sy|sy| |sy my ey]; try discriminate Hy.
  all: try (destruct sx; try discriminate Hx).
  all: try (destruct sy; try discriminate Hy).
  all: try discriminate.
  rewrite SFadd_finite. intros E.
  assert (H : has_sign false (binary_normalize prec emax
            (aligned false mx ex (Z.min ex ey) + aligned false my ey (Z.min ex ey))
            (Z.min ex ey) false)).
  { apply binary_normalize_nonneg.
    pose proof (aligned_pos mx ex (Z.min ex ey)).
    pose proof (aligned_pos my ey (Z.min ex ey)). lia. }
  rewrite E in H. exact H.
Qed.

(** A difference that the comparison allows is not negative. *)
Lemma SFsub_nonneg x y :
  valid_binary x = true -> valid_binary y = true ->
  SFleb SFzero x = true -> SFltb x y = false ->
  SFsub prec emax x y <> S754_nan ->
  SFleb SFzero (SFsub prec emax x y) = true.
Proof.
  intros Vx Vy Hx Hy Hn.
  destruct x as [sx|sx| |sx mx ex]; try discriminate Hx;
    destruct y as [sy|sy| |sy my ey];
    try (exfalso; apply Hn; reflexivity).
  all: try (destruct sx; try discriminate Hx).
  all: try (destruct sy; try discriminate Hy).
  all: try reflexivity.
  all: try (exfalso; apply Hn; reflexivity).
  all: rewrite SFsub_finite; apply has_sign_false_leb, binary_normalize_nonneg.
  - pose proof (aligned_pos mx ex (Z.min ex ey)).
    pose proof (aligned_neg my ey (Z.min ex ey)). lia.
  - unfold SFltb in Hy. rewrite SFcompare_finite in Hy by assumption.
    destruct (Z.compare_spec (aligned false mx ex (Z.min ex ey))
                             (aligned false my ey (Z.min ex ey))); try discriminate; lia.
Qed.

Lemma SFsub_not_nan x y :
  x <> S754_nan -> y <> S754_nan -> x <> S754_infinity false ->
  SFleb SFzero x = true ->
  SFsub prec emax x y <> S754_nan.
Proof.
  intros Nx Ny Ix Hx.
  destruct x as [sx|sx| |sx mx ex]; try congruence;
    destruct y as [sy|sy| |sy my ey]; try congruence.
  all: try (destruct sx; try discriminate Hx; try congruence).
  all: try (destruct sy); try discriminate.
  all: rewrite SFsub_finite.
  all: match goal with |- binary_normalize _ _ ?m ?e _ <> _ =>
         destruct m as [|p|p]; simpl binary_normalize; try discriminate end.
  all: match goal with |- binary_round _ _ ?s ?m ?e <> _ =>
         pose proof (binary_round_sign s m e) as H; intros E; rewrite E in H; exact H end.
Qed.

(** *** The same facts on primitive floats *)

Lemma add_nonneg (b a : float) :
  nonneg b -> (a <=? 0)%float = false -> is_nan (b + a) = false -> nonneg (b + a).
Proof.
  unfold nonneg. rewrite is_nan_false, !leb_spec, add_spec, Prim2SF_zero.
  apply SFadd_nonneg.
Qed.

Lemma sub_nonneg (b a : float) :
  nonneg b -> (b <? a)%float = false -> is_nan (b - a) = false -> nonneg (b - a).
Proof.
  unfold nonneg. rewrite is_nan_false, !leb_spec, ltb_spec, sub_spec, Prim2SF_zero.
  apply SFsub_nonneg; apply Prim2SF_valid.
Qed.

Lemma add_not_nan (b a : float) :
  nonneg b -> (0 <? a)%float = true -> is_nan (b + a) = false.
Proof.
  unfold nonneg. rewrite is_nan_false, leb_spec, ltb_spec, add_spec, Prim2SF_zero.
  apply SFadd_not_nan.
Qed.

Lemma positive_not_nan (a : float) : (0 <? a)%float = true -> is_nan a = false.
Proof.
  rewrite is_nan_false, ltb_spec, Prim2SF_zero.
  destruct (Prim2SF a); discriminate.
Qed.

Lemma positive_not_leb (a : float) : (0 <? a)%float = true -> (a <=? 0)%float = false.
Proof.
  rewrite ltb_spec, leb_spec, Prim2SF_zero.
  destruct (Prim2SF a) as [s|s| |s m e]; try discriminate; destruct s; try discriminate; reflexivity.
Qed.


(** ** Facts on the statements *)

Lemma sqlite_integer_intro (n : Z) :
  (- 2 ^ 63 <=? n) && (n <? 2 ^ 63) = true -> sqlite_integer n.
Proof.
  intros H. apply andb_true_iff in H as [Hlo Hhi].
  split; [apply Z.leb_le, Hlo | apply Z.ltb_lt, Hhi].
Qed.

Lemma next_rowid_gt seq keys k : In k keys -> k < next_rowid seq keys.
Proof.
  unfold next_rowid. induction keys as [|x keys IH]; simpl; [tauto|].
  intros [->|H]; [lia|]. specialize (IH H). lia.
Qed.

Lemma select_customer_In db account_no r :
  select_customer db account_no = Some r ->
  In r (customer db) /\ Customer.account_no r = account_no.
Proof.
  unfold select_customer. intros H. apply find_some in H.
  rewrite Z.eqb_eq in H. exact H.
Qed.

Lemma select_customer_None db account_no :
  select_customer db account_no = None ->
  ~ In account_no (map Customer.account_no (customer db)).
Proof.
  unfold select_customer. intros H Hin.
  apply in_map_iff in Hin as (r & E & Hr).
  apply (find_none _ _ H) in Hr. simpl in Hr.
  rewrite E, Z.eqb_refl in Hr. discriminate.
Qed.

Lemma select_balance_Some db account_no result :
  select_balance db account_no = Some result <->
  exists r, select_customer db account_no = Some r /\ Customer.balance r = result.
Proof.
  unfold select_balance. destruct (select_customer db account_no) as [r|]; simpl.
  - split; [intros [= <-]; eauto | intros (r' & [= <-] & <-); reflexivity].
  - split; [discriminate | intros (r' & [=] & _)].
Qed.

Lemma update_balance_keys db new_balance account_no :
  map Customer.account_no (customer (update_balance db new_balance account_no))
  = map Customer.account_no (customer db).
Proof.
  unfold update_balance; simpl. rewrite map_map. apply map_ext.
  intros r. destruct (Customer.account_no r =? account_no); reflexivity.
Qed.

Lemma insert_transaction_Some db account_no action_type amount balance_after date_time db' :
  insert_transaction db account_no action_type amount balance_after date_time = Some db' ->
  check_transaction_action_type action_type = true
  /\ is_nan amount = false /\ is_nan balance_after = false
  /\ db' = Database (customer db)
             (transactions db ++
                [Transactions.Row
                   (next_rowid (seq_transactions db) (map Transactions.id (transactions db)))
                   account_no action_type amount balance_after date_time])
             (seq_customer db)
             (next_rowid (seq_transactions db) (map Transactions.id (transactions db))).
Proof.
  unfold insert_transaction.
  destruct (check_transaction_action_type action_type); simpl; [|discriminate].
  destruct (is_nan amount); simpl; [discriminate|].
  destruct (is_nan balance_after); simpl; [discriminate|].
  intros [= <-]. auto.
Qed.

Lemma insert_customer_Some db name mobile_no email pin_hash action_type db' account_no :
  insert_customer db name mobile_no email pin_hash action_type = Some (db', account_no) ->
  existsb (fun r => (Customer.mobile_no r =? mobile_no)%string) (customer db) = false
  /\ existsb (fun r => (Customer.email r =? email)%string) (customer db) = false
  /\ check_customer_action_type action_type = true
  /\ account_no = next_rowid (seq_customer db) (map Customer.account_no (customer db))
  /\ db' = Database
             (customer db ++
                [Customer.Row account_no name mobile_no email pin_hash action_type 0%float])
             (transactions db) account_no (seq_transactions db).
Proof.
  unfold insert_customer.
  destruct (existsb _ (customer db)); [discriminate|].
  destruct (existsb _ (customer db)); [discriminate|].
  destruct (check_customer_action_type action_type); simpl; [|discriminate].
  intros [= <- <-]. auto.
Qed.

Lemma ledger_insert db0 rows t seq_c seq_t account_no :
  ledger (Database db0 (rows ++ [t]) seq_c seq_t) account_no
  = ledger (Database db0 rows seq_c seq_t) account_no
    ++ (if Transactions.account_no t =? account_no then [t] else []).
Proof. unfold ledger; simpl. rewrite filter_app. reflexivity. Qed.

Lemma replay_app records t :
  replay (records ++ [t]) = apply_record (replay records) t.
Proof. unfold replay. rewrite fold_left_app. reflexivity. Qed.

(** ** What a call does *)

(** [deposit] and [withdraw] either return [None] and leave the database
    alone, or post one record: the balance is replaced and the record is
    appended. *)
Lemma deposit_cases date_time db account_no amount :
  deposit date_time db account_no amount = (None, db)
  \/ exists result db',
       select_balance db account_no = Some result
       /\ (amount <=? 0)%float = false
       /\ insert_transaction (update_balance db (result + amount)%float account_no)
            account_no "Credit" amount (result + amount)%float date_time = Some db'
       /\ deposit date_time db account_no amount = (Some (result + amount)%float, db').
Proof.
  unfold deposit.
  destruct (amount <=? 0)%float; [left; reflexivity|].
  destruct (select_balance db account_no) as [result|]; [|left; reflexivity].
  destruct (insert_transaction _ _ _ _ _ _) as [db'|] eqn:E; [|left; reflexivity].
  right. exists result, db'. repeat split; auto.
Qed.

Lemma withdraw_cases date_time db account_no amount :
  withdraw date_time db account_no amount = (None, db)
  \/ exists result db',
       select_balance db account_no = Some result
       /\ (amount <=? 0)%float = false
       /\ (result <? amount)%float = false
       /\ insert_transaction (update_balance db (result - amount)%float account_no)
            account_no "Debit" amount (result - amount)%float date_time = Some db'
       /\ withdraw date_time db account_no amount = (Some (result - amount)%float, db').
Proof.
  unfold withdraw.
  destruct (amount <=? 0)%float; [left; reflexivity|].
  destruct (select_balance db account_no) as [result|]; [|left; reflexivity].
  destruct (result <? amount)%float eqn:L; [left; reflexivity|].
  destruct (insert_transaction _ _ _ _ _ _) as [db'|] eqn:E; [|left; reflexivity].
  right. exists result, db'. repeat split; auto.
Qed.

(** ** Invariants are kept *)

Lemma filter_none {A : Type} (f : A -> bool) (l : list A) :
  (forall x, In x l -> f x = false) -> filter f l = [].
Proof.
  induction l as [|x l IH]; simpl; intros H; [reflexivity|].
  rewrite (H x (or_introl eq_refl)). apply IH. intros y Hy. apply H. now right.
Qed.

Lemma StronglySorted_snoc (l : list Z) (y : Z) :
  StronglySorted Z.lt l -> (forall x, In x l -> x < y) -> StronglySorted Z.lt (l ++ [y]).
Proof.
  induction 1 as [|x l Hl IH Hx]; simpl; intros Hy.
  - repeat constructor.
  - constructor.
    + apply IH. intros z Hz. apply Hy. now right.
    + apply Forall_app. split; [exact Hx|]. repeat constructor. apply Hy. now left.
Qed.

Lemma NoDup_snoc (l : list Z) (y : Z) : NoDup l -> ~ In y l -> NoDup (l ++ [y]).
Proof.
  intros Hl Hy. apply (Permutation_NoDup (Permutation_cons_append l y)).
  constructor; assumption.
Qed.

Lemma init_db_consistent : consistent init_db.
Proof.
  repeat split; try (intros x []).
  - constructor.
  - constructor.
Qed.

Section Posting.

Variables (db db' : database) (account_no : Z) (action_type : string).
Variables (amount result new_balance : float) (date_time : string).

Hypothesis selected : select_balance db account_no = Some result.
Hypothesis inserted :
  insert_transaction (update_balance db new_balance account_no)
    account_no action_type amount new_balance date_time = Some db'.

Lemma post_customer :
  customer db'
  = map (fun r => if Customer.account_no r =? account_no
                  then set_balance new_balance r else r) (customer db).
Proof.
  apply insert_transaction_Some in inserted as (_ & _ & _ & ->). reflexivity.
Qed.

Lemma post_transactions :
  transactions db'
  = transactions db ++
      [Transactions.Row
         (next_rowid (seq_transactions db) (map Transactions.id (transactions db)))
         account_no action_type amount new_balance date_time].
Proof.
  apply insert_transaction_Some in inserted as (_ & _ & _ & ->). reflexivity.
Qed.

Lemma post_keys :
  map Customer.account_no (customer db') = map Customer.account_no (customer db).
Proof.
  rewrite post_customer, map_map. apply map_ext.
  intros r. destruct (Customer.account_no r =? account_no); reflexivity.
Qed.

Lemma post_ledger a :
  ledger db' a
  = ledger db a ++
      (if account_no =? a
       then [Transactions.Row
               (next_rowid (seq_transactions db) (map Transactions.id (transactions db)))
               account_no action_type amount new_balance date_time]
       else []).
Proof. unfold ledger. rewrite post_transactions, filter_app. reflexivity. Qed.

Lemma post_replays :
  (forall id, apply_record result
     (Transactions.Row id account_no action_type amount new_balance date_time) = new_balance) ->
  replays db -> replays db'.
Proof.
  intros Happ Hrep r' Hin. rewrite post_customer in Hin.
  apply in_map_iff in Hin as (r & <- & Hr).
  apply select_balance_Some in selected as (r0 & Hsel & Hbal).
  apply select_customer_In in Hsel as (Hr0 & Hacc).
  pose proof (Hrep r0 Hr0) as H0. rewrite Hacc, Hbal in H0.
  rewrite post_ledger.
  destruct (Customer.account_no r =? account_no) eqn:E.
  - apply Z.eqb_eq in E. simpl. rewrite E, Z.eqb_refl, replay_app, H0. apply Happ.
  - rewrite Z.eqb_sym, E, app_nil_r. apply Hrep, Hr.
Qed.

Lemma post_balances_nonneg :
  nonneg new_balance -> balances_nonneg db -> balances_nonneg db'.
Proof.
  intros Hnew Hnn r' Hin. rewrite post_customer in Hin.
  apply in_map_iff in Hin as (r & <- & Hr).
  destruct (Customer.account_no r =? account_no); [exact Hnew | apply Hnn, Hr].
Qed.

Lemma post_owned : owned db -> owned db'.
Proof.
  intros Hown t Hin. rewrite post_keys. rewrite post_transactions in Hin.
  apply in_app_or in Hin as [Hin|[<-|[]]]; [apply Hown, Hin|]. simpl.
  apply select_balance_Some in selected as (r0 & Hsel & _).
  apply select_customer_In in Hsel as (Hr0 & <-).
  apply in_map, Hr0.
Qed.

Lemma post_keyed : keyed db -> keyed db'.
Proof.
  intros [Hc Ht]. split; [rewrite post_keys; exact Hc|].
  rewrite post_transactions, map_app. apply StronglySorted_snoc; [exact Ht|].
  intros x Hx. simpl. apply next_rowid_gt, Hx.
Qed.

End Posting.

Lemma deposit_consistent date_time db account_no amount :
  consistent db -> consistent (snd (deposit date_time db account_no amount)).
Proof.
  intros (Hrep & Hnn & Hown & Hkey).
  destruct (deposit_cases date_time db account_no amount)
    as [->|(result & db' & Hsel & Hamt & Hins & ->)]; simpl;
    [exact (conj Hrep (conj Hnn (conj Hown Hkey)))|].
  pose proof (insert_transaction_Some _ _ _ _ _ _ _ Hins) as (_ & _ & Hnan & _).
  apply select_balance_Some in Hsel as Hsel'. destruct Hsel' as (r0 & Hr0 & Hbal).
  apply select_customer_In in Hr0 as (Hr0 & _).
  split; [|split; [|split]].
  - eapply post_replays; eauto.
  - eapply post_balances_nonneg; eauto.
    apply add_nonneg; auto. rewrite <- Hbal. apply Hnn, Hr0.
  - eapply post_owned; eauto.
  - eapply post_keyed; eauto.
Qed.

Lemma withdraw_consistent date_time db account_no amount :
  consistent db -> consistent (snd (withdraw date_time db account_no amount)).
Proof.
  intros (Hrep & Hnn & Hown & Hkey).
  destruct (withdraw_cases date_time db account_no amount)
    as [->|(result & db' & Hsel & Hamt & Hlt & Hins & ->)]; simpl;
    [exact (conj Hrep (conj Hnn (conj Hown Hkey)))|].
  pose proof (insert_transaction_Some _ _ _ _ _ _ _ Hins) as (_ & _ & Hnan & _).
  apply select_balance_Some in Hsel as Hsel'. destruct Hsel' as (r0 & Hr0 & Hbal).
  apply select_customer_In in Hr0 as (Hr0 & _).
  split; [|split; [|split]].
  - eapply post_replays; eauto.
  - eapply post_balances_nonneg; eauto.
    apply sub_nonneg; auto. rewrite <- Hbal. apply Hnn, Hr0.
  - eapply post_owned; eauto.
  - eapply post_keyed; eauto.
Qed.

Lemma create_account_cases db name mobile_no email pin action_type :
  create_account db name mobile_no email pin action_type = (None, db)
  \/ exists db' account_no,
       insert_customer db name mobile_no email (Sha256.hexdigest (str pin))
         (match action_type with Some a => a | None => "Savings"%string end)
       = Some (db', account_no)
       /\ create_account db name mobile_no email pin action_type = (Some account_no, db').
Proof.
  unfold create_account.
  destruct (insert_customer _ _ _ _ _ _) as [[db' account_no]|]; [right|left]; eauto.
Qed.

Lemma fresh_ledger_empty db account_no :
  owned db -> ~ In account_no (map Customer.account_no (customer db)) ->
  ledger db account_no = [].
Proof.
  intros Hown Hfresh. apply filter_none. intros t Ht.
  apply Z.eqb_neq. intros E. apply Hfresh. rewrite <- E. apply Hown, Ht.
Qed.

Lemma next_rowid_fresh seq keys : ~ In (next_rowid seq keys) keys.
Proof. intros H. apply (next_rowid_gt seq) in H. lia. Qed.

Lemma create_account_consistent db name mobile_no email pin action_type :
  consistent db ->
  consistent (snd (create_account db name mobile_no email pin action_type)).
Proof.
  intros (Hrep & Hnn & Hown & Hkey).
  destruct (create_account_cases db name mobile_no email pin action_type)
    as [->|(db' & account_no & Hins & ->)]; simpl;
    [exact (conj Hrep (conj Hnn (conj Hown Hkey)))|].
  apply insert_customer_Some in Hins as (_ & _ & _ & Hid & ->).
  assert (Hfresh : ~ In account_no (map Customer.account_no (customer db)))
    by (rewrite Hid; apply next_rowid_fresh).
  split; [|split; [|split]].
  - intros r Hin. simpl in Hin.
    apply in_app_or in Hin as [Hin|[<-|[]]].
    + apply (Hrep r Hin).
    + simpl. change (ledger _ account_no) with (ledger db account_no).
      rewrite fresh_ledger_empty by assumption. reflexivity.
  - intros r Hin. simpl in Hin.
    apply in_app_or in Hin as [Hin|[<-|[]]]; [apply Hnn, Hin | reflexivity].
  - intros t Ht. simpl in *. rewrite map_app. apply in_or_app. left. apply Hown, Ht.
  - destruct Hkey as [Hc Ht]. split; [|exact Ht].
    simpl. rewrite map_app. apply NoDup_snoc; assumption.
Qed.

Lemma perform_consistent db c : consistent db -> consistent (snd (perform db c)).
Proof.
  intros H. destruct c; simpl; try exact H.
  - pose proof (create_account_consistent db name mobile_no email pin action_type H) as H'.
    destruct (create_account _ _ _ _ _ _); exact H'.
  - pose proof (deposit_consistent date_time db account_no amount H) as H'.
    destruct (deposit _ _ _ _); exact H'.
  - pose proof (withdraw_consistent date_time db account_no amount H) as H'.
    destruct (withdraw _ _ _ _); exact H'.
Qed.

Lemma run_consistent calls : forall db, consistent db -> consistent (run db calls).
Proof.
  induction calls as [|c calls IH]; intros db H; simpl; [exact H|].
  apply IH, perform_consistent, H.
Qed.

Lemma reachable_consistent calls : consistent (run init_db calls).
Proof. apply run_consistent, init_db_consistent. Qed.

(** ** The scenario of the specification *)

Example demo_answers :
  answers init_db demo
  = [ AccountNo (Some 1);
      Authenticated true;
      Balance (Some 1000%float);
      Balance (Some 800%float);
      Balance (Some 800%float);
      Entries [ History.Entry 2 "Debit" 200 800 "2024-05-01T09:30:00.000417";
                History.Entry 1 "Credit" 1000 1000 "2024-05-01T09:30:00.000001" ];
      Balance None ].
Proof. vm_compute. reflexivity. Qed.

Example demo_database :
  run init_db demo
  = Database
      [ john_doe 800 ]
      [ Transactions.Row 1 1 "Credit" 1000 1000 "2024-05-01T09:30:00.000001";
        Transactions.Row 2 1 "Debit" 200 800 "2024-05-01T09:30:00.000417" ]
      1 2.
Proof. vm_compute. reflexivity. Qed.

Example cents_answers :
  answers init_db cents
  = [ AccountNo (Some 1);
      Balance (Some 0.1%float);
      Balance (Some 0.05%float);
      Balance (Some 0.25%float) ].
Proof. vm_compute. reflexivity. Qed.

(** ** C1: the ledger replays to the balance *)

Lemma StronglySorted_filter_ids (f : Transactions.row -> bool) (rows : list Transactions.row) :
  StronglySorted Z.lt (map Transactions.id rows) ->
  StronglySorted Z.lt (map Transactions.id (filter f rows)).
Proof.
  induction rows as [|t rows IH]; simpl; intros H; [constructor|].
  apply StronglySorted_inv in H as [Hs Hall].
  destruct (f t); simpl; [constructor|]; auto.
  rewrite Forall_forall in *. intros x Hx.
  apply in_map_iff in Hx as (t' & <- & Ht'). apply filter_In in Ht' as [Ht' _].
  apply Hall, in_map, Ht'.
Qed.

(** C1 fails as stated: in the session [cents] every call succeeds and the
    balance is [0.25], but the credited amounts minus the debited amounts are
    not, whether they are summed in binary64 ([0.25000000000000006]) or
    exactly. *)
Lemma C1_credits_minus_debits_differ :
  let db := run init_db cents in
  answers init_db cents
  = [ AccountNo (Some 1); Balance (Some 0.1%float);
      Balance (Some 0.05%float); Balance (Some 0.25%float) ]
  /\ get_balance db 1 = Some 0.25%float
  /\ credits_minus_debits (ledger db 1) = 0.25000000000000006%float
  /\ credits_minus_debits (ledger db 1) <> 0.25%float
  /\ ~ (exact_credits_minus_debits (ledger db 1) == exact_value 0.25%float)%Q.
Proof.
  cbv zeta. split; [vm_compute; reflexivity|].
  split; [vm_compute; reflexivity|]. split; [vm_compute; reflexivity|]. split.
  - intros H. apply (f_equal Prim2SF) in H. vm_compute in H. discriminate.
  - intros H. vm_compute in H. discriminate.
Qed.

(** C1 (amended): in every database a backend reaches, the records of an
    account are stored in the order of their keys, and replaying them in that
    order from [0.00], adding the amount of a Credit and subtracting the
    amount of a Debit with the binary64 operations of the code, gives exactly
    the stored balance of the account. *)
Theorem C1_replay_reproduces_balance (calls : list call) (account_no : Z) (r : Customer.row) :
  select_customer (run init_db calls) account_no = Some r ->
  replay (ledger (run init_db calls) account_no) = Customer.balance r
  /\ StronglySorted Z.lt (map Transactions.id (ledger (run init_db calls) account_no)).
Proof.
  intros Hsel. destruct (reachable_consistent calls) as (Hrep & _ & _ & _ & Hsorted).
  apply select_customer_In in Hsel as (Hin & <-). split.
  - apply Hrep, Hin.
  - apply StronglySorted_filter_ids, Hsorted.
Qed.

Lemma C1_replay_reproduces_balance_demo :
  replay (ledger (run init_db demo) 1) = 800%float
  /\ StronglySorted Z.lt (map Transactions.id (ledger (run init_db demo) 1)).
Proof.
  apply (C1_replay_reproduces_balance demo 1 (john_doe 800)).
  vm_compute. reflexivity.
Defined.

(** ** C2: no overdraft, no negative balance *)

Lemma withdraw_insufficient date_time db account_no amount result :
  select_balance db account_no = Some result ->
  (result <? amount)%float = true ->
  withdraw date_time db account_no amount = (None, db).
Proof.
  intros Hsel Hlt. unfold withdraw. rewrite Hsel, Hlt.
  destruct (amount <=? 0)%float; reflexivity.
Qed.

Lemma nonneg_not_negative (b : float) : nonneg b -> (b <? 0)%float = false.
Proof.
  unfold nonneg. rewrite leb_spec, ltb_spec, Prim2SF_zero.
  destruct (Prim2SF b) as [s|s| |s m e]; try discriminate;
    destruct s; try discriminate; reflexivity.
Qed.

(** C2: a withdrawal of more than the balance returns [None] (the only
    failure signal of the code, whatever the cause) and leaves the database,
    so the balance and the ledger, as it was; and in every database reached
    from the empty one, through any calls, no balance is negative: [0 <= b]
    holds and [b < 0] does not. *)
Theorem C2_no_overdraft (calls : list call) (date_time : string)
    (account_no : Z) (amount result : float) :
  select_balance (run init_db calls) account_no = Some result ->
  ((result <? amount)%float = true ->
     withdraw date_time (run init_db calls) account_no amount = (None, run init_db calls))
  /\ (0 <=? result)%float = true
  /\ (result <? 0)%float = false.
Proof.
  intros Hsel.
  assert (Hnn : nonneg result).
  { destruct (reachable_consistent calls) as (_ & Hnn & _).
    apply select_balance_Some in Hsel as (r & Hr & <-).
    apply select_customer_In in Hr as (Hr & _). apply Hnn, Hr. }
  split; [|split].
  - apply withdraw_insufficient, Hsel.
  - exact Hnn.
  - apply nonneg_not_negative, Hnn.
Qed.

Lemma C2_no_overdraft_demo :
  withdraw "2024-05-01T09:31:00" (run init_db demo) 1 10000%float = (None, run init_db demo)
  /\ (0 <=? 800)%float = true
  /\ (800 <? 0)%float = false.
Proof.
  destruct (C2_no_overdraft demo "2024-05-01T09:31:00" 1 10000%float 800%float)
    as (H1 & H2 & H3); [vm_compute; reflexivity|].
  split; [apply H1; reflexivity | split; assumption].
Defined.

(** ** C3: what a deposit does *)

Lemma find_account_map (f : Customer.row -> Customer.row) (rows : list Customer.row) (a : Z) :
  (forall r, Customer.account_no (f r) = Customer.account_no r) ->
  find (fun r => Customer.account_no r =? a) (map f rows)
  = option_map f (find (fun r => Customer.account_no r =? a) rows).
Proof.
  intros Hf. induction rows as [|x rows IH]; simpl; [reflexivity|].
  rewrite Hf. destruct (Customer.account_no x =? a); [reflexivity | exact IH].
Qed.

Lemma post_select db db' account_no action_type amount new_balance date_time a :
  insert_transaction (update_balance db new_balance account_no)
    account_no action_type amount new_balance date_time = Some db' ->
  select_customer db' a
  = option_map (fun r => if Customer.account_no r =? account_no
                         then set_balance new_balance r else r)
               (select_customer db a).
Proof.
  intros Hins. unfold select_customer.
  rewrite (post_customer _ _ _ _ _ _ _ Hins). apply find_account_map.
  intros r. destruct (Customer.account_no r =? account_no); reflexivity.
Qed.

Lemma post_select_same db db' account_no action_type amount new_balance date_time r :
  insert_transaction (update_balance db new_balance account_no)
    account_no action_type amount new_balance date_time = Some db' ->
  select_customer db account_no = Some r ->
  select_customer db' account_no = Some (set_balance new_balance r).
Proof.
  intros Hins Hsel. rewrite (post_select _ _ _ _ _ _ _ _ Hins), Hsel. simpl.
  apply select_customer_In in Hsel as (_ & ->). rewrite Z.eqb_refl. reflexivity.
Qed.

Lemma post_select_other db db' account_no action_type amount new_balance date_time other :
  insert_transaction (update_balance db new_balance account_no)
    account_no action_type amount new_balance date_time = Some db' ->
  other <> account_no ->
  select_customer db' other = select_customer db other.
Proof.
  intros Hins Hneq. rewrite (post_select _ _ _ _ _ _ _ _ Hins).
  destruct (select_customer db other) as [r|] eqn:Hsel; [|reflexivity]. simpl.
  apply select_customer_In in Hsel as (_ & ->).
  apply Z.eqb_neq in Hneq. rewrite Hneq. reflexivity.
Qed.

Lemma deposit_posted date_time db account_no amount r :
  consistent db ->
  select_customer db account_no = Some r ->
  (0 <? amount)%float = true ->
  exists db',
    insert_transaction (update_balance db (Customer.balance r + amount)%float account_no)
      account_no "Credit" amount (Customer.balance r + amount)%float date_time = Some db'
    /\ deposit date_time db account_no amount
       = (Some (Customer.balance r + amount)%float, db').
Proof.
  intros (_ & Hnn & _) Hsel Hpos.
  assert (Hb : nonneg (Customer.balance r)).
  { apply select_customer_In in Hsel as (Hr & _). apply Hnn, Hr. }
  destruct (insert_transaction (update_balance db (Customer.balance r + amount)%float account_no)
              account_no "Credit" amount (Customer.balance r + amount)%float date_time)
    as [db'|] eqn:Hins.
  - exists db'. split; [reflexivity|].
    unfold deposit, select_balance. rewrite (positive_not_leb amount Hpos), Hsel. simpl.
    rewrite Hins. reflexivity.
  - unfold insert_transaction in Hins.
    rewrite (positive_not_nan amount Hpos), (add_not_nan _ _ Hb Hpos) in Hins.
    discriminate Hins.
Qed.

(** C3: on an account [r] of a consistent database (every database a backend
    reaches is one) and for an amount [> 0], [deposit] returns
    [balance r + amount], the binary64 sum the code computes; afterwards the
    row of the account is [r] with that balance and no other change, the
    transactions are the former ones followed by one Credit record with a new
    key, the amount, the new balance and the time of the call, and every
    other account reads as before. *)
Theorem C3_deposit (date_time : string) (db : database) (account_no : Z)
    (amount : float) (r : Customer.row) :
  consistent db ->
  select_customer db account_no = Some r ->
  (0 <? amount)%float = true ->
  let new_balance := (Customer.balance r + amount)%float in
  exists db' id,
    deposit date_time db account_no amount = (Some new_balance, db')
    /\ select_customer db' account_no = Some (set_balance new_balance r)
    /\ transactions db'
       = transactions db
         ++ [Transactions.Row id account_no "Credit" amount new_balance date_time]
    /\ ~ In id (map Transactions.id (transactions db))
    /\ map Customer.account_no (customer db') = map Customer.account_no (customer db)
    /\ (forall other, other <> account_no ->
          select_customer db' other = select_customer db other).
Proof.
  intros Hcons Hsel Hpos new_balance.
  destruct (deposit_posted date_time db account_no amount r Hcons Hsel Hpos)
    as (db' & Hins & Hdep).
  exists db', (next_rowid (seq_transactions db) (map Transactions.id (transactions db))).
  split; [exact Hdep|]. split; [|split; [|split; [|split]]].
  - apply (post_select_same _ _ _ _ _ _ _ _ Hins Hsel).
  - apply (post_transactions _ _ _ _ _ _ _ Hins).
  - apply next_rowid_fresh.
  - apply (post_keys _ _ _ _ _ _ _ Hins).
  - intros other Hneq. apply (post_select_other _ _ _ _ _ _ _ _ Hins Hneq).
Qed.

Lemma C3_deposit_demo :
  exists db' id,
    deposit "2024-05-01T09:31:00" (run init_db demo) 1 0.5%float = (Some 800.5%float, db')
    /\ select_customer db' 1 = Some (john_doe 800.5)
    /\ transactions db'
       = transactions (run init_db demo)
         ++ [Transactions.Row id 1 "Credit" 0.5 800.5 "2024-05-01T09:31:00"]
    /\ ~ In id (map Transactions.id (transactions (run init_db demo)))
    /\ map Customer.account_no (customer db')
       = map Customer.account_no (customer (run init_db demo))
    /\ (forall other, other <> 1 ->
          select_customer db' other = select_customer (run init_db demo) other).
Proof.
  apply (C3_deposit "2024-05-01T09:31:00" (run init_db demo) 1 0.5%float (john_doe 800)).
  - apply reachable_consistent.
  - vm_compute. reflexivity.
  - reflexivity.
Defined.

(** ** C4 and C5: the two refusals before any write *)

(** C4: for an account number that no row of [customer] has, [deposit] and
    [withdraw] return [None], whatever the amount, and the database (both
    tables and both key counters) is the one before the call. *)
Theorem C4_unknown_account (date_time : string) (db : database) (account_no : Z)
    (amount : float) :
  ~ In account_no (map Customer.account_no (customer db)) ->
  deposit date_time db account_no amount = (None, db)
  /\ withdraw date_time db account_no amount = (None, db).
Proof.
  intros Hnot.
  assert (Hsel : select_balance db account_no = None).
  { unfold select_balance.
    destruct (select_customer db account_no) as [r|] eqn:E; [|reflexivity].
    apply select_customer_In in E as (Hr & <-). exfalso. apply Hnot, in_map, Hr. }
  unfold deposit, withdraw. rewrite Hsel.
  destruct (amount <=? 0)%float; split; reflexivity.
Qed.

Lemma C4_unknown_account_demo :
  deposit "2024-05-01T09:31:00" (run init_db demo) 7 50%float = (None, run init_db demo)
  /\ withdraw "2024-05-01T09:31:00" (run init_db demo) 7 50%float = (None, run init_db demo).
Proof.
  apply (C4_unknown_account "2024-05-01T09:31:00" (run init_db demo) 7 50%float).
  vm_compute. intros [H|[]]. discriminate H.
Defined.

(** C5: for an amount [<= 0], [deposit] and [withdraw] return [None] for
    every account number, known or not, and every database, which they hand
    back as it is: the answer is decided before any statement is executed. *)
Theorem C5_invalid_amount (date_time : string) (db : database) (account_no : Z)
    (amount : float) :
  (amount <=? 0)%float = true ->
  deposit date_time db account_no amount = (None, db)
  /\ withdraw date_time db account_no amount = (None, db).
Proof.
  intros Hle. unfold deposit, withdraw. rewrite Hle. split; reflexivity.
Qed.

Lemma C5_invalid_amount_demo :
  deposit "2024-05-01T09:31:00" (run init_db demo) 1 (-5)%float = (None, run init_db demo)
  /\ withdraw "2024-05-01T09:31:00" (run init_db demo) 1 0%float = (None, run init_db demo).
Proof.
  split.
  - apply (C5_invalid_amount "2024-05-01T09:31:00" (run init_db demo) 1 (-5)%float).
    reflexivity.
  - apply (C5_invalid_amount "2024-05-01T09:31:00" (run init_db demo) 1 0%float).
    reflexivity.
Defined.

(** ** C6: opening an account *)

Lemma hexdigest_length (s : string) : String.length (Sha256.hexdigest s) = 64%nat.
Proof. reflexivity. Qed.

Lemma existsb_mobile_no db mobile_no r :
  In r (customer db) -> Customer.mobile_no r = mobile_no ->
  existsb (fun r => (Customer.mobile_no r =? mobile_no)%string) (customer db) = true.
Proof.
  intros Hr E. apply existsb_exists. exists r. split; [exact Hr|].
  apply String.eqb_eq, E.
Qed.

Lemma existsb_email db email r :
  In r (customer db) -> Customer.email r = email ->
  existsb (fun r => (Customer.email r =? email)%string) (customer db) = true.
Proof.
  intros Hr E. apply existsb_exists. exists r. split; [exact Hr|].
  apply String.eqb_eq, E.
Qed.

Lemma create_account_failure db name mobile_no email pin action_type db' :
  create_account db name mobile_no email pin action_type = (None, db') -> db' = db.
Proof.
  destruct (create_account_cases db name mobile_no email pin action_type)
    as [->|(db2 & account_no & _ & ->)]; congruence.
Qed.

(** C6: [create_account] returns [None] when a row already has the mobile
    number or the e-mail address, and a call that returns [None] leaves the
    database as it was.  A call that returns an account number returns one
    that no row had, and appends to [customer] exactly one row: that number,
    the given name, mobile number, e-mail address and category, the balance
    [0.00], and as [pin_hash] the SHA-256 digest of [str(pin)] in
    hexadecimal, 64 characters long, so not the text of the PIN unless that
    text is itself 64 characters long.  The transactions are untouched. *)
Theorem C6_create_account (db : database) (name mobile_no email : string)
    (pin : pin_value) (action_type : option string) :
  ((exists r, In r (customer db)
              /\ (Customer.mobile_no r = mobile_no \/ Customer.email r = email)) ->
     create_account db name mobile_no email pin action_type = (None, db))
  /\ (forall db',
        create_account db name mobile_no email pin action_type = (None, db') -> db' = db)
  /\ (forall account_no db',
        create_account db name mobile_no email pin action_type = (Some account_no, db') ->
        ~ In account_no (map Customer.account_no (customer db))
        /\ customer db'
           = customer db
             ++ [Customer.Row account_no name mobile_no email
                   (Sha256.hexdigest (str pin))
                   (match action_type with Some a => a | None => "Savings"%string end)
                   0%float]
        /\ transactions db' = transactions db
        /\ String.length (Sha256.hexdigest (str pin)) = 64%nat
        /\ (String.length (str pin) <> 64%nat -> Sha256.hexdigest (str pin) <> str pin)).
Proof.
  split; [|split].
  - intros (r & Hr & Hdup). unfold create_account, insert_customer.
    destruct Hdup as [E|E].
    + rewrite (existsb_mobile_no db mobile_no r Hr E). reflexivity.
    + rewrite (existsb_email db email r Hr E).
      destruct (existsb _ (customer db)); reflexivity.
  - apply create_account_failure.
  - intros account_no db' Hc.
    destruct (create_account_cases db name mobile_no email pin action_type)
      as [E|(db2 & a & Hins & E)]; rewrite E in Hc; [discriminate|].
    injection Hc as -> ->.
    apply insert_customer_Some in Hins as (_ & _ & _ & Hid & ->).
    split; [rewrite Hid; apply next_rowid_fresh|].
    split; [reflexivity|]. split; [reflexivity|].
    split; [apply hexdigest_length|].
    intros Hlen E'. apply Hlen. rewrite <- E'. apply hexdigest_length.
Qed.

Lemma C6_create_account_demo :
  create_account (run init_db demo) "Jane Roe" "1234567890" "jane@example.com"
    (PinStr "0000") (Some "Current"%string) = (None, run init_db demo)
  /\ exists db',
       create_account (run init_db demo) "Jane Roe" "5550100" "jane@example.com"
         (PinStr "0000") (Some "Current"%string) = (Some 2, db')
       /\ customer db'
          = [ john_doe 800;
              Customer.Row 2 "Jane Roe" "5550100" "jane@example.com"
                "9af15b336e6a9619928537df30b2e6a2376569fcf9d7e773eccede65606529a0"
                "Current" 0 ].
Proof.
  split.
  - apply (C6_create_account (run init_db demo) "Jane Roe" "1234567890" "jane@example.com"
             (PinStr "0000") (Some "Current"%string)).
    exists (john_doe 800). split; [vm_compute|]; auto.
  - eexists. split; [vm_compute; reflexivity|]. vm_compute. reflexivity.
Defined.

(** ** C7 and C10: authentication *)

Lemma authenticate_true db account_no pin :
  authenticate db account_no pin = true <->
  exists r, select_customer db account_no = Some r
            /\ Customer.pin_hash r = Sha256.hexdigest (str pin).
Proof.
  unfold authenticate, select_pin_hash.
  destruct (select_customer db account_no) as [r|]; simpl.
  - rewrite String.eqb_eq. split; [eauto | intros (r' & [= <-] & E); exact E].
  - split; [discriminate | intros (r' & [=] & _)].
Qed.

Lemma authenticate_unknown db account_no pin :
  ~ In account_no (map Customer.account_no (customer db)) ->
  authenticate db account_no pin = false.
Proof.
  intros Hnot. destruct (authenticate db account_no pin) eqn:E; [|reflexivity].
  apply authenticate_true in E as (r & Hsel & _).
  apply select_customer_In in Hsel as (Hr & <-). exfalso. apply Hnot, in_map, Hr.
Qed.

(** C7: for an account number SQLite can bind, [authenticate] returns
    [True] exactly when the [SELECT] finds a row for the account number and
    its [pin_hash] is the digest of [str(pin)].  For such a number that no
    row has it returns [False]; that call and a call with a wrong PIN for
    an existing account give the same answer and leave the same database,
    so a caller cannot tell them apart. *)
Theorem C7_authenticate (db : database) (account_no : Z) (pin : pin_value) :
  sqlite_integer account_no ->
  (authenticate db account_no pin = true <->
     exists r, select_customer db account_no = Some r
               /\ Customer.pin_hash r = Sha256.hexdigest (str pin))
  /\ (~ In account_no (map Customer.account_no (customer db)) ->
        authenticate db account_no pin = false
        /\ forall known wrong r,
             sqlite_integer known ->
             select_customer db known = Some r ->
             Customer.pin_hash r <> Sha256.hexdigest (str wrong) ->
             perform db (Authenticate known wrong) = (Authenticated false, db)
             /\ perform db (Authenticate account_no pin) = (Authenticated false, db)).
Proof.
  intros _. split; [apply authenticate_true|].
  intros Hnot. pose proof (authenticate_unknown db account_no pin Hnot) as Hunk.
  split; [exact Hunk|].
  intros known wrong r _ Hsel Hneq. simpl. rewrite Hunk. split; [|reflexivity].
  destruct (authenticate db known wrong) eqn:E; [|reflexivity].
  apply authenticate_true in E as (r' & Hsel' & E). congruence.
Qed.

Lemma C7_authenticate_demo :
  authenticate (run init_db demo) 1 (PinInt 1234) = true
  /\ perform (run init_db demo) (Authenticate 1 (PinInt 4321))
     = (Authenticated false, run init_db demo)
  /\ perform (run init_db demo) (Authenticate 7 (PinInt 1234))
     = (Authenticated false, run init_db demo).
Proof.
  split.
  - apply (C7_authenticate (run init_db demo) 1 (PinInt 1234)).
    + apply sqlite_integer_intro; reflexivity.
    + exists (john_doe 800). split; vm_compute; reflexivity.
  - refine (proj2 (proj2 (C7_authenticate (run init_db demo) 7 (PinInt 1234) _) _)
              1 (PinInt 4321) (john_doe 800) _ _ _).
    + apply sqlite_integer_intro; reflexivity.
    + vm_compute. intros [H|[]]. discriminate H.
    + apply sqlite_integer_intro; reflexivity.
    + vm_compute. reflexivity.
    + vm_compute. discriminate.
Defined.

Lemma find_app_Some {A : Type} (f : A -> bool) (l l' : list A) (x : A) :
  find f l = Some x -> find f (l ++ l') = Some x.
Proof.
  induction l as [|y l IH]; simpl; [discriminate|].
  destruct (f y); auto.
Qed.

Lemma find_app_None {A : Type} (f : A -> bool) (l l' : list A) :
  find f l = None -> find f (l ++ l') = find f l'.
Proof.
  induction l as [|y l IH]; simpl; [reflexivity|].
  destruct (f y); [discriminate | exact IH].
Qed.

(** The credential of an account is set once: no call changes it. *)
Lemma perform_pin_hash db c account_no h :
  select_pin_hash db account_no = Some h ->
  select_pin_hash (snd (perform db c)) account_no = Some h.
Proof.
  intros H. destruct c; simpl; try exact H.
  - destruct (create_account_cases db name mobile_no email pin action_type)
      as [->|(db' & a & Hins & ->)]; simpl; [exact H|].
    apply insert_customer_Some in Hins as (_ & _ & _ & _ & ->).
    unfold select_pin_hash, select_customer in *. simpl.
    destruct (find _ (customer db)) as [r|] eqn:E; [|discriminate].
    rewrite (find_app_Some _ _ _ _ E). exact H.
  - destruct (deposit_cases date_time db account_no0 amount)
      as [->|(result & db' & _ & _ & Hins & ->)]; simpl; [exact H|].
    unfold select_pin_hash in *. rewrite (post_select _ _ _ _ _ _ _ _ Hins).
    destruct (select_customer db account_no) as [r|]; [|discriminate].
    simpl in *. destruct (Customer.account_no r =? account_no0); exact H.
  - destruct (withdraw_cases date_time db account_no0 amount)
      as [->|(result & db' & _ & _ & _ & Hins & ->)]; simpl; [exact H|].
    unfold select_pin_hash in *. rewrite (post_select _ _ _ _ _ _ _ _ Hins).
    destruct (select_customer db account_no) as [r|]; [|discriminate].
    simpl in *. destruct (Customer.account_no r =? account_no0); exact H.
Qed.

Lemma run_pin_hash calls : forall db account_no h,
  select_pin_hash db account_no = Some h ->
  select_pin_hash (run db calls) account_no = Some h.
Proof.
  induction calls as [|c calls IH]; intros db account_no h H; simpl; [exact H|].
  apply IH, perform_pin_hash, H.
Qed.

Lemma create_account_pin_hash db name mobile_no email pin action_type account_no db' :
  create_account db name mobile_no email pin action_type = (Some account_no, db') ->
  select_pin_hash db' account_no = Some (Sha256.hexdigest (str pin)).
Proof.
  intros Hc.
  destruct (create_account_cases db name mobile_no email pin action_type)
    as [E|(db2 & a & Hins & E)]; rewrite E in Hc; [discriminate|].
  injection Hc as -> ->.
  apply insert_customer_Some in Hins as (_ & _ & _ & Hid & ->).
  unfold select_pin_hash, select_customer. simpl.
  rewrite find_app_None.
  - simpl. rewrite Z.eqb_refl. reflexivity.
  - destruct (find _ (customer db)) as [r|] eqn:E'; [|reflexivity].
    apply find_some in E' as (Hr & E'). apply Z.eqb_eq in E'.
    exfalso. apply (next_rowid_fresh (seq_customer db) (map Customer.account_no (customer db))).
    rewrite <- Hid, <- E'. apply in_map, Hr.
Qed.





(** ** C8: the history of an account *)

Lemma string_leb_iff (s1 s2 : string) :
  (s1 <=? s2)%string = true <-> s1 = s2 \/ String_as_OT.lt s1 s2.
Proof.
  unfold String.leb.
  pose proof (String_as_OT.cmp_eq s1 s2) as Heq.
  pose proof (String_as_OT.cmp_lt s1 s2) as Hlt.
  pose proof (String_as_OT.cmp_antisym s1 s2) as Hanti.
  unfold String_as_OT.cmp in *.
  destruct (String.compare s1 s2) eqn:E.
  - split; [intros _; left; apply Heq; reflexivity | reflexivity].
  - split; [intros _; right; apply Hlt; reflexivity | reflexivity].
  - split; [discriminate|]. intros [H|H].
    + apply Heq in H. discriminate.
    + apply Hlt in H. discriminate.
Qed.

Lemma string_leb_trans (s1 s2 s3 : string) :
  (s1 <=? s2)%string = true -> (s2 <=? s3)%string = true -> (s1 <=? s3)%string = true.
Proof.
  rewrite !string_leb_iff. intros [->|H12] [->|H23]; auto.
  right. eapply String_as_OT.lt_trans; eassumption.
Qed.

Lemma string_leb_false (s1 s2 : string) :
  (s1 <=? s2)%string = false -> (s2 <=? s1)%string = true.
Proof.
  intros H. destruct (String.leb_total s1 s2) as [H'|H']; congruence.
Qed.

Lemma insert_desc_perm r rows : Permutation (insert_desc r rows) (r :: rows).
Proof.
  induction rows as [|x rows IH]; simpl; [reflexivity|].
  destruct (Transactions.date_time x <=? Transactions.date_time r)%string; [reflexivity|].
  rewrite IH. apply perm_swap.
Qed.

Lemma insert_desc_sorted r rows :
  StronglySorted newest_first rows -> StronglySorted newest_first (insert_desc r rows).
Proof.
  induction rows as [|x rows IH]; simpl; intros H.
  - repeat constructor.
  - apply StronglySorted_inv in H as [Hs Hall].
    destruct (Transactions.date_time x <=? Transactions.date_time r)%string eqn:E.
    + constructor; [constructor; assumption|].
      constructor; [exact E|].
      rewrite Forall_forall in *. intros y Hy. unfold newest_first in *.
      eapply string_leb_trans; [apply Hall, Hy | exact E].
    + constructor; [apply IH, Hs|].
      rewrite Forall_forall in *. intros y Hy.
      apply (Permutation_in _ (insert_desc_perm r rows)) in Hy as [<-|Hy].
      * apply string_leb_false, E.
      * apply Hall, Hy.
Qed.

Lemma order_by_date_time_desc_perm rows : Permutation (order_by_date_time_desc rows) rows.
Proof.
  induction rows as [|r rows IH]; simpl; [reflexivity|].
  rewrite insert_desc_perm. constructor. exact IH.
Qed.

Lemma order_by_date_time_desc_sorted rows :
  StronglySorted newest_first (order_by_date_time_desc rows).
Proof.
  induction rows as [|r rows IH]; simpl; [constructor|].
  apply insert_desc_sorted, IH.
Qed.

(** C8 fails as stated for a negative limit, which [LIMIT] takes as no
    bound: with [-1] the two records of the demo account come back, and two
    entries are not at most [-1] entries. *)
Lemma C8_negative_limit_is_no_limit :
  List.length (get_transaction_history (run init_db demo) 1 (Some (-1))) = 2%nat
  /\ ~ (Z.of_nat (List.length (get_transaction_history (run init_db demo) 1 (Some (-1))))
        <= -1).
Proof.
  split; [vm_compute; reflexivity|].
  intros H. vm_compute in H. apply H. reflexivity.
Qed.

(** C8 (amended): with [n] the limit, [10] when none is supplied, and for
    an account number and a limit SQLite can bind, the history of an account
    is the front of its ledger put newest first: the records of the account
    and no others, each once, ordered by [date_time] descending, of which
    the first [n] are returned when [0 <= n] (all of them when there are
    fewer) and all when [n] is negative.  The call hands the database back
    as it is. *)
Theorem C8_history (db : database) (account_no : Z) (limit : option Z) :
  let n := match limit with Some n => n | None => 10 end in
  sqlite_integer account_no ->
  sqlite_integer n ->
  exists rows rest,
    get_transaction_history db account_no limit = map entry_of_row rows
    /\ Permutation (rows ++ rest) (ledger db account_no)
    /\ StronglySorted newest_first (rows ++ rest)
    /\ (forall t, In t rows ->
          In t (transactions db) /\ Transactions.account_no t = account_no)
    /\ (0 <= n ->
          List.length rows = Nat.min (Z.to_nat n) (List.length (ledger db account_no)))
    /\ (n < 0 -> rest = [])
    /\ get_transaction_history db account_no None
       = get_transaction_history db account_no (Some 10)
    /\ snd (perform db (GetHistory account_no limit)) = db.
Proof.
  intros n _ _.
  set (sorted := order_by_date_time_desc (ledger db account_no)).
  assert (Hperm : Permutation sorted (ledger db account_no))
    by apply order_by_date_time_desc_perm.
  exists (sql_limit n sorted), (if n <? 0 then [] else skipn (Z.to_nat n) sorted).
  assert (Happ : sql_limit n sorted ++ (if n <? 0 then [] else skipn (Z.to_nat n) sorted)
                 = sorted).
  { unfold sql_limit. destruct (n <? 0); [apply app_nil_r | apply firstn_skipn]. }
  rewrite Happ.
  split; [reflexivity|]. split; [exact Hperm|].
  split; [apply order_by_date_time_desc_sorted|].
  split; [|split; [|split; [|split]]].
  - intros t Ht.
    assert (Hin : In t sorted) by (rewrite <- Happ; apply in_or_app; left; exact Ht).
    apply (Permutation_in _ Hperm) in Hin. unfold ledger in Hin.
    apply filter_In in Hin as [Hin E]. apply Z.eqb_eq in E. auto.
  - intros Hn. unfold sql_limit.
    destruct (n <? 0) eqn:E; [apply Z.ltb_lt in E; lia|].
    rewrite length_firstn, (Permutation_length Hperm). reflexivity.
  - intros Hn. apply Z.ltb_lt in Hn. rewrite Hn. reflexivity.
  - reflexivity.
  - reflexivity.
Qed.

Lemma C8_history_demo :
  exists rows rest,
    get_transaction_history (run init_db demo) 1 (Some 1) = map entry_of_row rows
    /\ Permutation (rows ++ rest) (ledger (run init_db demo) 1)
    /\ StronglySorted newest_first (rows ++ rest)
    /\ (forall t, In t rows ->
          In t (transactions (run init_db demo)) /\ Transactions.account_no t = 1)
    /\ (0 <= 1 ->
          List.length rows = Nat.min (Z.to_nat 1) (List.length (ledger (run init_db demo) 1)))
    /\ (1 < 0 -> rest = [])
    /\ get_transaction_history (run init_db demo) 1 None
       = get_transaction_history (run init_db demo) 1 (Some 10)
    /\ snd (perform (run init_db demo) (GetHistory 1 (Some 1))) = run init_db demo.
Proof.
  apply (C8_history (run init_db demo) 1 (Some 1)); apply sqlite_integer_intro; reflexivity.
Defined.

Example history_limit_1 :
  get_transaction_history (run init_db demo) 1 (Some 1)
  = [ History.Entry 2 "Debit" 200 800 "2024-05-01T09:30:00.000417" ].
Proof. vm_compute. reflexivity. Qed.

(** ** C9: the arithmetic of amounts and balances *)

Lemma two_power_pos (e : Z) : (0 < 2 ^ e)%Q.
Proof. apply Qpower_0_lt. reflexivity. Qed.

Lemma cond_Zopp_mul (s : bool) (a b : Z) : cond_Zopp s (a * b) = cond_Zopp s a * b.
Proof. destruct s; simpl; lia. Qed.

(** The value of a finite number from its aligned mantissa. *)
Lemma SFexact_aligned s m e e' :
  e' <= e ->
  (SFexact (S754_finite s m e) == inject_Z (aligned s m e e') * 2 ^ e')%Q.
Proof.
  intros H. unfold aligned. rewrite shl_align_value by exact H.
  rewrite cond_Zopp_mul, inject_Z_mult. simpl SFexact.
  rewrite Zpower_Qpower by lia.
  rewrite <- Qmult_assoc. apply Qmult_comp; [reflexivity|].
  change (inject_Z 2) with 2%Q.
  rewrite <- Qpower_plus by discriminate.
  replace (e - e' + e') with e by lia. reflexivity.
Qed.

Lemma SFcompare_exact_finite sx mx ex sy my ey :
  bounded prec emax mx ex = true -> bounded prec emax my ey = true ->
  SFcompare (S754_finite sx mx ex) (S754_finite sy my ey)
  = Some (SFexact (S754_finite sx mx ex) ?= SFexact (S754_finite sy my ey))%Q.
Proof.
  intros Hx Hy. rewrite SFcompare_finite by assumption. f_equal.
  set (e' := Z.min ex ey).
  pose proof (SFexact_aligned sx mx ex e' ltac:(lia)) as Ex.
  pose proof (SFexact_aligned sy my ey e' ltac:(lia)) as Ey.
  pose proof (two_power_pos e') as Hpos.
  destruct (Z.compare_spec (aligned sx mx ex e') (aligned sy my ey e')) as [E|E|E];
    symmetry.
  - apply Qeq_alt. rewrite Ex, Ey, E. reflexivity.
  - apply Qlt_alt. rewrite Ex, Ey. apply Qmult_lt_r; [exact Hpos|].
    rewrite <- Zlt_Qlt. exact E.
  - apply Qgt_alt. rewrite Ex, Ey. apply Qmult_lt_r; [exact Hpos|].
    rewrite <- Zlt_Qlt. exact E.
Qed.

Lemma SFexact_sign (s : bool) (m : positive) (e : Z) :
  if s then (SFexact (S754_finite s m e) < 0)%Q else (0 < SFexact (S754_finite s m e))%Q.
Proof.
  pose proof (two_power_pos e) as Hpos. simpl SFexact.
  destruct s; simpl cond_Zopp.
  - setoid_replace 0%Q with (0 * 2 ^ e)%Q by ring.
    apply Qmult_lt_r; [exact Hpos | reflexivity].
  - apply Qmult_lt_0_compat; [reflexivity | exact Hpos].
Qed.

(** On finite numbers the comparison of the code is the comparison of the
    values: no tolerance. *)
Lemma SFcompare_exact x y :
  valid_binary x = true -> valid_binary y = true ->
  match x with S754_zero _ | S754_finite _ _ _ => True | _ => False end ->
  match y with S754_zero _ | S754_finite _ _ _ => True | _ => False end ->
  SFcompare x y = Some (SFexact x ?= SFexact y)%Q.
Proof.
  intros Vx Vy Fx Fy.
  destruct x as [sx|sx| |sx mx ex]; try contradiction;
    destruct y as [sy|sy| |sy my ey]; try contradiction.
  - reflexivity.
  - pose proof (SFexact_sign sy my ey) as H. unfold SFcompare. f_equal. symmetry.
    destruct sy; [apply Qgt_alt | apply Qlt_alt]; exact H.
  - pose proof (SFexact_sign sx mx ex) as H. unfold SFcompare. f_equal. symmetry.
    destruct sx; [apply Qlt_alt | apply Qgt_alt]; exact H.
  - apply SFcompare_exact_finite; assumption.
Qed.

Lemma finite_spec (f : float) :
  finite f = true ->
  match Prim2SF f with S754_zero _ | S754_finite _ _ _ => True | _ => False end.
Proof. unfold finite. destruct (Prim2SF f); try discriminate; exact (fun _ => I). Qed.

Lemma ltb_exact (x y : float) :
  finite x = true -> finite y = true ->
  ((x <? y)%float = true <-> (exact_value x < exact_value y)%Q).
Proof.
  intros Fx Fy. rewrite ltb_spec. unfold SFltb, exact_value.
  rewrite (SFcompare_exact _ _ (Prim2SF_valid x) (Prim2SF_valid y)
             (finite_spec x Fx) (finite_spec y Fy)).
  rewrite Qlt_alt. destruct (_ ?= _)%Q; split; congruence.
Qed.

Lemma sub_not_nan (b a : float) :
  nonneg b -> finite b = true -> is_nan a = false -> is_nan (b - a) = false.
Proof.
  unfold nonneg, finite. rewrite !is_nan_false, leb_spec, sub_spec, Prim2SF_zero.
  intros Hb Fb Ha. apply SFsub_not_nan; try assumption.
  - intros E. rewrite E in Fb. discriminate.
  - intros E. rewrite E in Fb. discriminate.
Qed.

Lemma withdraw_posted date_time db account_no amount r :
  consistent db ->
  select_customer db account_no = Some r ->
  (0 <? amount)%float = true ->
  finite (Customer.balance r) = true ->
  (Customer.balance r <? amount)%float = false ->
  exists db',
    insert_transaction (update_balance db (Customer.balance r - amount)%float account_no)
      account_no "Debit" amount (Customer.balance r - amount)%float date_time = Some db'
    /\ withdraw date_time db account_no amount
       = (Some (Customer.balance r - amount)%float, db').
Proof.
  intros (_ & Hnn & _) Hsel Hpos Hfin Hlt.
  assert (Hb : nonneg (Customer.balance r)).
  { apply select_customer_In in Hsel as (Hr & _). apply Hnn, Hr. }
  destruct (insert_transaction (update_balance db (Customer.balance r - amount)%float account_no)
              account_no "Debit" amount (Customer.balance r - amount)%float date_time)
    as [db'|] eqn:Hins.
  - exists db'. split; [reflexivity|].
    unfold withdraw, select_balance. rewrite (positive_not_leb amount Hpos), Hsel. simpl.
    rewrite Hlt, Hins. reflexivity.
  - unfold insert_transaction in Hins.
    rewrite (positive_not_nan amount Hpos),
            (sub_not_nan _ _ Hb Hfin (positive_not_nan amount Hpos)) in Hins.
    discriminate Hins.
Qed.

(** C9 fails as stated: amounts and balances are binary64 values and the
    additions round.  After deposits of [0.1] and [0.2] the balance is
    [0.30000000000000004], which is neither [0.3] nor the exact sum of the
    two amounts that were stored. *)
Lemma C9_deposits_round :
  let db := run init_db thirty_cents in
  get_balance db 1 = Some 0.30000000000000004%float
  /\ 0.30000000000000004%float <> 0.3%float
  /\ ~ (exact_value 0.30000000000000004 == exact_value 0.1 + exact_value 0.2)%Q.
Proof.
  cbv zeta. split; [vm_compute; reflexivity|]. split.
  - intros H. apply (f_equal Prim2SF) in H. vm_compute in H. discriminate.
  - intros H. vm_compute in H. discriminate.
Qed.

(** C9 (amended): amounts and balances are binary64 floating-point values.
    On an account of a consistent database, for a finite amount [> 0] and a
    finite balance, [deposit] returns the binary64 sum of balance and amount
    and [withdraw] the binary64 difference, both rounded to the nearest
    value, so that errors can accumulate; the sufficiency test of [withdraw]
    is exact: the call is refused when the value of the balance is below
    the value of the amount, and carried out otherwise, with no tolerance. *)
Theorem C9_binary64_arithmetic (date_time : string) (db : database) (account_no : Z)
    (amount : float) (r : Customer.row) :
  consistent db ->
  select_customer db account_no = Some r ->
  (0 <? amount)%float = true ->
  finite amount = true ->
  finite (Customer.balance r) = true ->
  fst (deposit date_time db account_no amount) = Some (Customer.balance r + amount)%float
  /\ Prim2SF (Customer.balance r + amount)
     = SFadd prec emax (Prim2SF (Customer.balance r)) (Prim2SF amount)
  /\ Prim2SF (Customer.balance r - amount)
     = SFsub prec emax (Prim2SF (Customer.balance r)) (Prim2SF amount)
  /\ ((exact_value (Customer.balance r) < exact_value amount)%Q ->
        withdraw date_time db account_no amount = (None, db))
  /\ ((exact_value amount <= exact_value (Customer.balance r))%Q ->
        fst (withdraw date_time db account_no amount)
        = Some (Customer.balance r - amount)%float).
Proof.
  intros Hcons Hsel Hpos Fa Fb.
  split; [|split; [apply add_spec|split; [apply sub_spec|split]]].
  - destruct (deposit_posted date_time db account_no amount r Hcons Hsel Hpos)
      as (db' & _ & ->). reflexivity.
  - intros Hlt. apply (ltb_exact _ _ Fb Fa) in Hlt.
    apply (withdraw_insufficient _ _ _ _ (Customer.balance r)); [|exact Hlt].
    unfold select_balance. rewrite Hsel. reflexivity.
  - intros Hle.
    assert (Hlt : (Customer.balance r <? amount)%float = false).
    { destruct (Customer.balance r <? amount)%float eqn:E; [|reflexivity].
      apply (ltb_exact _ _ Fb Fa) in E. exfalso. apply (Qlt_not_le _ _ E), Hle. }
    destruct (withdraw_posted date_time db account_no amount r Hcons Hsel Hpos Fb Hlt)
      as (db' & _ & ->). reflexivity.
Qed.

Lemma C9_binary64_arithmetic_demo :
  fst (deposit "2024-05-01T09:31:00" (run init_db thirty_cents) 1 0.3%float)
  = Some 0.6000000000000001%float
  /\ withdraw "2024-05-01T09:31:00" (run init_db thirty_cents) 1 0.30000000000000010%float
     = (None, run init_db thirty_cents)
  /\ fst (withdraw "2024-05-01T09:31:00" (run init_db thirty_cents) 1 0.30000000000000004%float)
     = Some 0%float.
Proof.
  pose (john := john_doe 0.30000000000000004).
  assert (Hsel : select_customer (run init_db thirty_cents) 1 = Some john)
    by (vm_compute; reflexivity).
  split; [|split].
  - apply (C9_binary64_arithmetic "2024-05-01T09:31:00" _ 1 0.3%float john
             (reachable_consistent thirty_cents) Hsel); reflexivity.
  - apply (C9_binary64_arithmetic "2024-05-01T09:31:00" _ 1 0.30000000000000010%float john
             (reachable_consistent thirty_cents) Hsel); try reflexivity.
  - apply (C9_binary64_arithmetic "2024-05-01T09:31:00" _ 1 0.30000000000000004%float john
             (reachable_consistent thirty_cents) Hsel); try reflexivity.
    vm_compute. discriminate.
Defined.

(** ** Further properties of the backend *)

(** *** How a call changes the database *)

(** A call leaves the database alone, inserts one customer, or posts one
    record. *)
Lemma perform_cases db c :
  snd (perform db c) = db
  \/ (exists name mobile_no email pin_hash action_type account_no,
        insert_customer db name mobile_no email pin_hash action_type
        = Some (snd (perform db c), account_no))
  \/ (exists account_no action_type amount result new_balance date_time,
        posts db (snd (perform db c)) account_no action_type amount result
              new_balance date_time).
Proof.
  destruct c; simpl; auto.
  - destruct (create_account_cases db name mobile_no email pin action_type)
      as [->|(db' & a & Hins & ->)]; simpl; [auto|].
    right; left. repeat eexists. exact Hins.
  - destruct (deposit_cases date_time db account_no amount)
      as [->|(result & db' & Hsel & Hamt & Hins & ->)]; simpl; [auto|].
    right; right. exists account_no, "Credit"%string, amount, result,
      (result + amount)%float, date_time.
    repeat split; auto.
  - destruct (withdraw_cases date_time db account_no amount)
      as [->|(result & db' & Hsel & Hamt & Hlt & Hins & ->)]; simpl; [auto|].
    right; right. exists account_no, "Debit"%string, amount, result,
      (result - amount)%float, date_time.
    repeat split; auto.
Qed.

Lemma run_invariant (P : database -> Prop) :
  (forall db c, consistent db -> P db -> P (snd (perform db c))) ->
  forall calls db, consistent db -> P db -> P (run db calls).
Proof.
  intros Hstep. induction calls as [|c calls IH]; intros db Hc HP; simpl; [exact HP|].
  apply IH; [apply perform_consistent, Hc | apply Hstep; assumption].
Qed.

(** *** More facts on binary64 comparisons *)

Lemma not_leb_positive (a : float) :
  (a <=? 0)%float = false -> is_nan a = false -> (0 <? a)%float = true.
Proof.
  rewrite is_nan_false, ltb_spec, leb_spec, Prim2SF_zero.
  destruct (Prim2SF a) as [s|s| |s m e]; try discriminate; try congruence;
    destruct s; try discriminate; reflexivity.
Qed.

Lemma neither_is_nan (a : float) :
  (a <=? 0)%float = false -> (0 <? a)%float = false -> is_nan a = true.
Proof.
  intros Hle Hlt. destruct (is_nan a) eqn:E; [reflexivity|].
  rewrite (not_leb_positive a Hle E) in Hlt. discriminate.
Qed.

Lemma positive_finite_spec (b : float) :
  finite b = true -> (0 <? b)%float = true ->
  exists m e, Prim2SF b = S754_finite false m e.
Proof.
  unfold finite. rewrite ltb_spec, Prim2SF_zero.
  destruct (Prim2SF b) as [s|s| |s m e]; try discriminate.
  destruct s; [discriminate|]. eauto.
Qed.

Lemma sub_self (b : float) :
  finite b = true -> (0 <? b)%float = true -> (b - b)%float = 0%float.
Proof.
  intros Hf Hp. destruct (positive_finite_spec b Hf Hp) as (m & e & E).
  apply Prim2SF_inj. rewrite sub_spec, E, Prim2SF_zero.
  unfold SF64sub. rewrite SFsub_finite, Z.sub_diag. reflexivity.
Qed.

Lemma ltb_irrefl (b : float) : (b <? b)%float = false.
Proof.
  rewrite ltb_spec. unfold SFltb.
  destruct (Prim2SF b) as [s|s| |s m e] eqn:E; try reflexivity.
  - destruct s; reflexivity.
  - rewrite SFcompare_refl by discriminate. reflexivity.
Qed.

(** *** Invariants of the records and of the keys *)

Lemma NoDup_snoc_gen {A : Type} (l : list A) (y : A) :
  NoDup l -> ~ In y l -> NoDup (l ++ [y]).
Proof.
  intros Hl Hy. apply (Permutation_NoDup (Permutation_cons_append l y)).
  constructor; assumption.
Qed.

Lemma existsb_false_not_in {A : Type} (f : Customer.row -> A) (eqb : A -> A -> bool)
    (rows : list Customer.row) (x : A) :
  (forall a b, eqb a b = true <-> a = b) ->
  existsb (fun r => eqb (f r) x) rows = false -> ~ In x (map f rows).
Proof.
  intros Heq Hex Hin. apply in_map_iff in Hin as (r & E & Hr).
  assert (existsb (fun r => eqb (f r) x) rows = true); [|congruence].
  apply existsb_exists. exists r. split; [exact Hr | apply Heq, E].
Qed.

Lemma posts_nonneg db db' account_no action_type amount result new_balance date_time :
  consistent db ->
  posts db db' account_no action_type amount result new_balance date_time ->
  (0 <? amount)%float = true /\ nonneg new_balance.
Proof.
  intros (_ & Hnn & _) (Hsel & Hins & Hamt & Hkind).
  pose proof (insert_transaction_Some _ _ _ _ _ _ _ Hins) as (_ & Ha & Hn & _).
  split; [apply not_leb_positive; assumption|].
  assert (Hb : nonneg result).
  { apply select_balance_Some in Hsel as (r & Hr & <-).
    apply select_customer_In in Hr as (Hr & _). apply Hnn, Hr. }
  destruct Hkind as [(_ & ->)|(_ & -> & Hlt)].
  - apply add_nonneg; assumption.
  - apply sub_nonneg; assumption.
Qed.

Lemma records_well_formed calls :
  forall t, In t (transactions (run init_db calls)) -> well_formed_record t.
Proof.
  apply (run_invariant (fun db => forall t, In t (transactions db) -> well_formed_record t));
    [|apply init_db_consistent|intros t []].
  intros db c Hc HP.
  destruct (perform_cases db c)
    as [->|[(n & m & e & h & a & k & Hins)
           |(k & a & amt & res & nb & dt & Hposts)]]; [exact HP| |].
  - apply insert_customer_Some in Hins as (_ & _ & _ & _ & ->). exact HP.
  - destruct (posts_nonneg _ _ _ _ _ _ _ _ Hc Hposts) as (Hamt & Hnb).
    destruct Hposts as (Hsel & Hins & _ & Hkind).
    intros t Ht. rewrite (post_transactions _ _ _ _ _ _ _ Hins) in Ht.
    apply in_app_or in Ht as [Ht|[<-|[]]]; [apply HP, Ht|].
    split; [|split; assumption]. simpl. destruct Hkind as [(-> & _)|(-> & _)]; auto.
Qed.

Lemma running_from_app records : forall balance t,
  running_from balance (records ++ [t])
  = running_from balance records
    ++ [apply_record (fold_left apply_record records balance) t].
Proof.
  induction records as [|x records IH]; intros balance t; simpl; [reflexivity|].
  rewrite IH. reflexivity.
Qed.

Lemma last_cons_default {A : Type} (l : list A) : forall a d, last (a :: l) d = last l a.
Proof.
  induction l as [|x l IH]; intros a d; [reflexivity|].
  change (last (a :: x :: l) d) with (last (x :: l) d). rewrite !IH. reflexivity.
Qed.

Lemma last_running_from records : forall balance,
  last (running_from balance records) balance = fold_left apply_record records balance.
Proof.
  induction records as [|x records IH]; intros balance; [reflexivity|].
  cbn [running_from fold_left]. rewrite last_cons_default. apply IH.
Qed.

Lemma posts_apply_record db db' account_no action_type amount result new_balance date_time id :
  posts db db' account_no action_type amount result new_balance date_time ->
  apply_record result
    (Transactions.Row id account_no action_type amount new_balance date_time) = new_balance.
Proof.
  intros (_ & _ & _ & [(-> & ->)|(-> & -> & _)]); reflexivity.
Qed.

Lemma reachable_snapshots calls : snapshots (run init_db calls).
Proof.
  apply (run_invariant snapshots); [|apply init_db_consistent|intros a; reflexivity].
  intros db c Hc HP.
  destruct (perform_cases db c)
    as [->|[(n & m & e & h & a & k & Hins)
           |(k & a & amt & res & nb & dt & Hposts)]]; [exact HP| |].
  - apply insert_customer_Some in Hins as (_ & _ & _ & _ & ->). exact HP.
  - pose proof Hposts as (Hsel & Hins & _ & _).
    intros b. rewrite (post_ledger _ _ _ _ _ _ _ Hins).
    destruct (k =? b) eqn:E; [|rewrite app_nil_r; apply HP].
    apply Z.eqb_eq in E. subst b.
    unfold running_balances. rewrite map_app, running_from_app, (HP k). simpl.
    f_equal. f_equal. fold (replay (ledger db k)).
    destruct Hc as (Hrep & _).
    apply select_balance_Some in Hsel as (r & Hr & Hbal).
    apply select_customer_In in Hr as (Hr & Hk).
    pose proof (Hrep r Hr) as H0. rewrite Hk, Hbal in H0. rewrite H0.
    symmetry. eapply posts_apply_record. exact Hposts.
Qed.

Lemma reachable_unique_identities calls : unique_identities (run init_db calls).
Proof.
  apply (run_invariant unique_identities);
    [|apply init_db_consistent|split; constructor].
  intros db c Hc [Hm He].
  destruct (perform_cases db c)
    as [->|[(n & m & e & h & a & k & Hins)
           |(k & a & amt & res & nb & dt & (_ & Hins & _))]]; [split; assumption| |].
  - apply insert_customer_Some in Hins as (Hm' & He' & _ & _ & ->).
    split; simpl; rewrite map_app; apply NoDup_snoc_gen; try assumption.
    + apply (existsb_false_not_in Customer.mobile_no String.eqb _ _ String.eqb_eq Hm').
    + apply (existsb_false_not_in Customer.email String.eqb _ _ String.eqb_eq He').
  - unfold unique_identities.
    rewrite (post_customer _ _ _ _ _ _ _ Hins), !map_map. split.
    + erewrite map_ext; [exact Hm|].
      intros r. destruct (Customer.account_no r =? k); reflexivity.
    + erewrite map_ext; [exact He|].
      intros r. destruct (Customer.account_no r =? k); reflexivity.
Qed.

Lemma keys_upto_S n : keys_upto (S n) = keys_upto n ++ [Z.of_nat (S n)].
Proof. unfold keys_upto. rewrite seq_S, map_app. reflexivity. Qed.

Lemma keys_upto_max n : fold_right Z.max 0 (keys_upto n) <= Z.of_nat n.
Proof.
  induction n as [|n IH]; [simpl; lia|].
  rewrite keys_upto_S.
  assert (H : forall l a, fold_right Z.max 0 (l ++ [a]) = Z.max (fold_right Z.max 0 l) (Z.max a 0)).
  { induction l as [|x l IHl]; intros a; simpl; [lia|]. rewrite IHl. lia. }
  rewrite H. lia.
Qed.

Lemma next_rowid_upto n : next_rowid (Z.of_nat n) (keys_upto n) = Z.of_nat (S n).
Proof. unfold next_rowid. pose proof (keys_upto_max n). lia. Qed.

Lemma reachable_consecutive_keys calls : consecutive_keys (run init_db calls).
Proof.
  apply (run_invariant consecutive_keys);
    [|apply init_db_consistent|repeat split].
  intros db c Hc (Hck & Hcs & Htk & Hts).
  destruct (perform_cases db c)
    as [->|[(n & m & e & h & a & k & Hins)
           |(k & a & amt & res & nb & dt & (_ & Hins & _))]];
    [repeat split; assumption| |].
  - apply insert_customer_Some in Hins as (_ & _ & _ & Hid & ->).
    rewrite Hck, Hcs, next_rowid_upto in Hid. subst k.
    unfold consecutive_keys. simpl.
    rewrite map_app, length_app, Nat.add_1_r, keys_upto_S, Hck. simpl.
    repeat split; assumption.
  - unfold consecutive_keys.
    rewrite (post_keys _ _ _ _ _ _ _ Hins), (post_transactions _ _ _ _ _ _ _ Hins).
    rewrite (post_customer _ _ _ _ _ _ _ Hins), length_map.
    apply insert_transaction_Some in Hins as (_ & _ & _ & ->). simpl.
    rewrite Htk, Hts, next_rowid_upto.
    rewrite map_app, length_app, Nat.add_1_r, keys_upto_S, Htk. simpl.
    repeat split; assumption.
Qed.

(** *** Withdrawals *)

(** X1: on an account [r] of a consistent database with a finite balance,
    for an amount [> 0] that the balance covers, [withdraw] returns
    [balance r - amount], which is not negative; afterwards the row of the
    account is [r] with that balance, the transactions are the former ones
    followed by one Debit record with a new key, the amount, the new balance
    and the time of the call, and every other account reads as before. *)
Theorem X1_withdraw (date_time : string) (db : database) (account_no : Z)
    (amount : float) (r : Customer.row) :
  consistent db ->
  select_customer db account_no = Some r ->
  finite (Customer.balance r) = true ->
  (0 <? amount)%float = true ->
  (Customer.balance r <? amount)%float = false ->
  let new_balance := (Customer.balance r - amount)%float in
  exists db' id,
    withdraw date_time db account_no amount = (Some new_balance, db')
    /\ (0 <=? new_balance)%float = true
    /\ select_customer db' account_no = Some (set_balance new_balance r)
    /\ transactions db'
       = transactions db
         ++ [Transactions.Row id account_no "Debit" amount new_balance date_time]
    /\ ~ In id (map Transactions.id (transactions db))
    /\ map Customer.account_no (customer db') = map Customer.account_no (customer db)
    /\ (forall other, other <> account_no ->
          select_customer db' other = select_customer db other).
Proof.
  intros Hcons Hsel Hfin Hpos Hlt new_balance.
  destruct (withdraw_posted date_time db account_no amount r Hcons Hsel Hpos Hfin Hlt)
    as (db' & Hins & Hw).
  exists db', (next_rowid (seq_transactions db) (map Transactions.id (transactions db))).
  split; [exact Hw|]. split; [|split; [|split; [|split; [|split]]]].
  - pose proof (insert_transaction_Some _ _ _ _ _ _ _ Hins) as (_ & _ & Hn & _).
    apply sub_nonneg; [|exact Hlt|exact Hn].
    destruct Hcons as (_ & Hnn & _).
    apply select_customer_In in Hsel as (Hr & _). apply Hnn, Hr.
  - apply (post_select_same _ _ _ _ _ _ _ _ Hins Hsel).
  - apply (post_transactions _ _ _ _ _ _ _ Hins).
  - apply next_rowid_fresh.
  - apply (post_keys _ _ _ _ _ _ _ Hins).
  - intros other Hneq. apply (post_select_other _ _ _ _ _ _ _ _ Hins Hneq).
Qed.

Lemma X1_withdraw_demo :
  exists db' id,
    withdraw "2024-05-01T09:31:00" (run init_db demo) 1 0.5%float = (Some 799.5%float, db')
    /\ (0 <=? 799.5)%float = true
    /\ select_customer db' 1 = Some (john_doe 799.5)
    /\ transactions db'
       = transactions (run init_db demo)
         ++ [Transactions.Row id 1 "Debit" 0.5 799.5 "2024-05-01T09:31:00"]
    /\ ~ In id (map Transactions.id (transactions (run init_db demo)))
    /\ map Customer.account_no (customer db')
       = map Customer.account_no (customer (run init_db demo))
    /\ (forall other, other <> 1 ->
          select_customer db' other = select_customer (run init_db demo) other).
Proof.
  apply (X1_withdraw "2024-05-01T09:31:00" (run init_db demo) 1 0.5%float (john_doe 800)).
  - apply reachable_consistent.
  - vm_compute. reflexivity.
  - vm_compute. reflexivity.
  - reflexivity.
  - reflexivity.
Defined.

(** X2: on an account of a consistent database, [deposit] succeeds exactly
    when the amount is [> 0], and, the balance being finite, [withdraw]
    succeeds exactly when the amount is [> 0] and not above the balance. *)
Theorem X2_success_conditions (date_time : string) (db : database) (account_no : Z)
    (amount : float) (r : Customer.row) :
  consistent db ->
  select_customer db account_no = Some r ->
  (fst (deposit date_time db account_no amount) <> None <-> (0 <? amount)%float = true)
  /\ (finite (Customer.balance r) = true ->
        (fst (withdraw date_time db account_no amount) <> None <->
           (0 <? amount)%float = true /\ (Customer.balance r <? amount)%float = false)).
Proof.
  intros Hcons Hsel.
  assert (Hbal : select_balance db account_no = Some (Customer.balance r))
    by (unfold select_balance; rewrite Hsel; reflexivity).
  split; [|intros Hfin]; split.
  - intros Hsome.
    destruct (deposit_cases date_time db account_no amount)
      as [E|(result & db' & _ & Hamt & Hins & _)]; [rewrite E in Hsome; now elim Hsome|].
    apply insert_transaction_Some in Hins as (_ & Ha & _).
    apply not_leb_positive; assumption.
  - intros Hpos.
    destruct (deposit_posted date_time db account_no amount r Hcons Hsel Hpos)
      as (db' & _ & ->). discriminate.
  - intros Hsome.
    destruct (withdraw_cases date_time db account_no amount)
      as [E|(result & db' & Hsel' & Hamt & Hlt & Hins & _)];
      [rewrite E in Hsome; now elim Hsome|].
    apply insert_transaction_Some in Hins as (_ & Ha & _).
    rewrite Hbal in Hsel'. injection Hsel' as <-.
    split; [apply not_leb_positive; assumption | exact Hlt].
  - intros [Hpos Hlt].
    destruct (withdraw_posted date_time db account_no amount r Hcons Hsel Hpos Hfin Hlt)
      as (db' & _ & ->). discriminate.
Qed.

Lemma X2_success_conditions_demo :
  fst (deposit "2024-05-01T09:31:00" (run init_db demo) 1 0.01%float) <> None
  /\ fst (withdraw "2024-05-01T09:31:00" (run init_db demo) 1 800%float) <> None.
Proof.
  destruct (X2_success_conditions "2024-05-01T09:31:00" (run init_db demo) 1 0.01%float
              (john_doe 800) (reachable_consistent demo)) as [Hd _];
    [vm_compute; reflexivity|].
  destruct (X2_success_conditions "2024-05-01T09:31:00" (run init_db demo) 1 800%float
              (john_doe 800) (reachable_consistent demo)) as [_ Hw];
    [vm_compute; reflexivity|].
  split.
  - apply Hd. reflexivity.
  - apply Hw; [vm_compute; reflexivity|]. split; reflexivity.
Defined.

(** X3: an amount that is not a number passes the [amount <= 0] test, but the
    record cannot be inserted (a NaN is bound as [NULL], the columns are
    [NOT NULL]); the [except] branch rolls back and both methods return
    [None] with the database as it was, whatever the account. *)
Theorem X3_nan_amount (date_time : string) (db : database) (account_no : Z)
    (amount : float) :
  is_nan amount = true ->
  (amount <=? 0)%float = false
  /\ deposit date_time db account_no amount = (None, db)
  /\ withdraw date_time db account_no amount = (None, db).
Proof.
  intros Hnan.
  assert (Hle : (amount <=? 0)%float = false).
  { rewrite leb_spec. apply is_nan_spec in Hnan. rewrite Hnan. reflexivity. }
  split; [exact Hle|].
  unfold deposit, withdraw, insert_transaction. rewrite Hle, Hnan.
  destruct (select_balance db account_no) as [result|]; [|split; reflexivity].
  simpl. destruct (result <? amount)%float; split; reflexivity.
Qed.

Lemma X3_nan_amount_demo :
  (nan <=? 0)%float = false
  /\ deposit "2024-05-01T09:31:00" (run init_db demo) 1 nan = (None, run init_db demo)
  /\ withdraw "2024-05-01T09:31:00" (run init_db demo) 1 nan = (None, run init_db demo).
Proof.
  apply (X3_nan_amount "2024-05-01T09:31:00" (run init_db demo) 1 nan). reflexivity.
Defined.

(** X4: a withdrawal of the whole balance, finite and above zero, leaves
    exactly [0]; from then on every withdrawal from the account is refused,
    whatever the amount, until a deposit is made. *)
Theorem X4_withdraw_all (date_time : string) (db : database) (account_no : Z)
    (r : Customer.row) :
  consistent db ->
  select_customer db account_no = Some r ->
  finite (Customer.balance r) = true ->
  (0 <? Customer.balance r)%float = true ->
  exists db',
    withdraw date_time db account_no (Customer.balance r) = (Some 0%float, db')
    /\ get_balance db' account_no = Some 0%float
    /\ forall date_time' amount,
         withdraw date_time' db' account_no amount = (None, db').
Proof.
  intros Hcons Hsel Hfin Hpos.
  destruct (withdraw_posted date_time db account_no (Customer.balance r) r
              Hcons Hsel Hpos Hfin (ltb_irrefl _)) as (db' & Hins & Hw).
  rewrite (sub_self _ Hfin Hpos) in *.
  exists db'. split; [exact Hw|].
  assert (Hbal : select_balance db' account_no = Some 0%float).
  { unfold select_balance.
    rewrite (post_select_same _ _ _ _ _ _ _ _ Hins Hsel). reflexivity. }
  split; [unfold get_balance; rewrite Hbal; reflexivity|].
  intros date_time' amount. unfold withdraw. rewrite Hbal.
  destruct (amount <=? 0)%float eqn:Hle; [reflexivity|].
  destruct (0 <? amount)%float eqn:Hlt; [reflexivity|].
  unfold insert_transaction. rewrite (neither_is_nan amount Hle Hlt). reflexivity.
Qed.

Lemma X4_withdraw_all_demo :
  exists db',
    withdraw "2024-05-01T09:31:00" (run init_db demo) 1 800%float = (Some 0%float, db')
    /\ get_balance db' 1 = Some 0%float
    /\ forall date_time' amount, withdraw date_time' db' 1 amount = (None, db').
Proof.
  apply (X4_withdraw_all "2024-05-01T09:31:00" (run init_db demo) 1 (john_doe 800)).
  - apply reachable_consistent.
  - vm_compute. reflexivity.
  - vm_compute. reflexivity.
  - reflexivity.
Defined.

(** *** Balances and accounts *)

Lemma create_account_select db name mobile_no email pin action_type account_no db' other :
  create_account db name mobile_no email pin action_type = (Some account_no, db') ->
  select_customer db' other
  = if account_no =? other
    then Some (Customer.Row account_no name mobile_no email (Sha256.hexdigest (str pin))
                 (match action_type with Some a => a | None => "Savings"%string end)
                 0%float)
    else select_customer db other.
Proof.
  intros Hc.
  destruct (create_account_cases db name mobile_no email pin action_type)
    as [E|(db2 & a & Hins & E)]; rewrite E in Hc; [discriminate|].
  injection Hc as -> ->.
  apply insert_customer_Some in Hins as (_ & _ & _ & Hid & ->).
  unfold select_customer. simpl.
  destruct (find _ (customer db)) as [r|] eqn:Hfind.
  - rewrite (find_app_Some _ _ _ _ Hfind).
    destruct (account_no =? other) eqn:E'; [|reflexivity].
    apply Z.eqb_eq in E'. subst other.
    apply find_some in Hfind as (Hr & Hk). apply Z.eqb_eq in Hk.
    exfalso. apply (next_rowid_fresh (seq_customer db) (map Customer.account_no (customer db))).
    rewrite <- Hid, <- Hk. apply in_map, Hr.
  - rewrite (find_app_None _ _ _ Hfind). simpl.
    destruct (account_no =? other); reflexivity.
Qed.

(** X5: for an account number SQLite can bind and a database in which no
    balance is [NULL], [get_balance] returns [None] exactly for the account
    numbers that no row has, and the stored balance of the row otherwise.
    Right after [create_account] returned a number, the balance of that
    account is [0.0] and the balance of every other account number is what
    it was. *)
Theorem X5_get_balance (db : database) (account_no : Z) :
  sqlite_integer account_no ->
  balances_not_null db ->
  (get_balance db account_no = None <->
     ~ In account_no (map Customer.account_no (customer db)))
  /\ (forall r, select_customer db account_no = Some r ->
        get_balance db account_no = Some (Customer.balance r))
  /\ (forall name mobile_no email pin action_type db',
        create_account db name mobile_no email pin action_type = (Some account_no, db') ->
        get_balance db' account_no = Some 0%float
        /\ forall other, sqlite_integer other -> other <> account_no ->
             get_balance db' other = get_balance db other).
Proof.
  intros _ Hnull.
  assert (Hrow : forall r, select_customer db account_no = Some r ->
                   get_balance db account_no = Some (Customer.balance r)).
  { intros r E. unfold get_balance, select_balance. rewrite E. simpl.
    apply select_customer_In in E as (Hr & _). rewrite (Hnull r Hr). reflexivity. }
  split; [|split; [exact Hrow|]].
  - split.
    + destruct (select_customer db account_no) as [r|] eqn:E.
      * rewrite (Hrow r eq_refl). discriminate.
      * intros _. apply select_customer_None, E.
    + intros Hnot. unfold get_balance, select_balance.
      destruct (select_customer db account_no) as [r|] eqn:E; [|reflexivity].
      apply select_customer_In in E as (Hr & <-). exfalso. apply Hnot, in_map, Hr.
  - intros name mobile_no email pin action_type db' Hc.
    unfold get_balance, select_balance. split.
    + rewrite (create_account_select _ _ _ _ _ _ _ _ account_no Hc), Z.eqb_refl.
      reflexivity.
    + intros other _ Hneq.
      rewrite (create_account_select _ _ _ _ _ _ _ _ other Hc).
      destruct (account_no =? other) eqn:E; [|reflexivity].
      apply Z.eqb_eq in E. congruence.
Qed.

Lemma X5_get_balance_demo :
  get_balance (run init_db demo) 7 = None
  /\ get_balance (run init_db demo) 1 = Some 800%float.
Proof.
  assert (Hnull : balances_not_null (run init_db demo)).
  { intros r Hr. vm_compute in Hr. destruct Hr as [<-|[]]. reflexivity. }
  split.
  - apply (X5_get_balance (run init_db demo) 7);
      [apply sqlite_integer_intro; reflexivity | exact Hnull |].
    vm_compute. intros [H|[]]. discriminate H.
  - apply (proj1 (proj2 (X5_get_balance (run init_db demo) 1
                           (sqlite_integer_intro 1 eq_refl) Hnull)) (john_doe 800)).
    vm_compute. reflexivity.
Defined.

Lemma existsb_in {A : Type} (f : Customer.row -> A) (eqb : A -> A -> bool)
    (rows : list Customer.row) (x : A) :
  (forall a b, eqb a b = true <-> a = b) ->
  existsb (fun r => eqb (f r) x) rows = true <-> In x (map f rows).
Proof.
  intros Heq. rewrite existsb_exists, in_map_iff.
  split; intros (r & H1 & H2); exists r.
  - split; [apply Heq, H2 | exact H1].
  - split; [exact H2 | apply Heq, H1].
Qed.

(** X6: [create_account] returns [None] exactly when the mobile number is
    already in the table, or the e-mail address is, or the category is
    neither [Savings] nor [Current] (the [CHECK] of the table); in every
    other case an account is opened.  A call without a category opens a
    [Savings] account. *)
Theorem X6_create_account_refusals (db : database) (name mobile_no email : string)
    (pin : pin_value) (action_type : option string) :
  let category := match action_type with Some a => a | None => "Savings"%string end in
  (fst (create_account db name mobile_no email pin action_type) = None <->
     In mobile_no (map Customer.mobile_no (customer db))
     \/ In email (map Customer.email (customer db))
     \/ (category <> "Savings"%string /\ category <> "Current"%string))
  /\ create_account db name mobile_no email pin None
     = create_account db name mobile_no email pin (Some "Savings"%string).
Proof.
  intros category. split; [|reflexivity].
  unfold create_account, insert_customer. fold category.
  pose proof (existsb_in Customer.mobile_no String.eqb (customer db) mobile_no String.eqb_eq)
    as Hm.
  pose proof (existsb_in Customer.email String.eqb (customer db) email String.eqb_eq) as He.
  destruct (existsb _ (customer db)) eqn:Em.
  { split; [intros _; left; apply Hm; reflexivity | reflexivity]. }
  destruct (existsb (fun r => (Customer.email r =? email)%string) (customer db)) eqn:Ee.
  { split; [intros _; right; left; apply He; reflexivity | reflexivity]. }
  unfold check_customer_action_type.
  destruct (category =? "Savings")%string eqn:Es; simpl.
  { apply String.eqb_eq in Es. split; [discriminate|].
    intros [H|[H|[H _]]]; [apply Hm in H|apply He in H|]; congruence. }
  destruct (category =? "Current")%string eqn:Ec; simpl.
  { apply String.eqb_eq in Ec. split; [discriminate|].
    intros [H|[H|[_ H]]]; [apply Hm in H|apply He in H|]; congruence. }
  apply String.eqb_neq in Es, Ec. split; [intros _; right; right; auto | reflexivity].
Qed.

Lemma X6_create_account_refusals_demo :
  fst (create_account (run init_db demo) "Jane Roe" "5550100" "jane@example.com"
         (PinStr "0000") (Some "Joint"%string)) = None
  /\ fst (create_account (run init_db demo) "Jane Roe" "5550100" "jane@example.com"
            (PinStr "0000") None) = Some 2.
Proof.
  split; [|vm_compute; reflexivity].
  apply (X6_create_account_refusals (run init_db demo) "Jane Roe" "5550100"
           "jane@example.com" (PinStr "0000") (Some "Joint"%string)).
  right; right. split; discriminate.
Defined.

(** X7: in every database a backend reaches, no two rows of [customer] have
    the same account number, the same mobile number or the same e-mail
    address. *)
Theorem X7_identities_are_unique (calls : list call) :
  NoDup (map Customer.account_no (customer (run init_db calls)))
  /\ NoDup (map Customer.mobile_no (customer (run init_db calls)))
  /\ NoDup (map Customer.email (customer (run init_db calls))).
Proof.
  destruct (reachable_consistent calls) as (_ & _ & _ & Hk & _).
  destruct (reachable_unique_identities calls) as [Hm He].
  auto.
Qed.

(** X8: in every database a backend reaches, both tables are numbered from
    [1] without a gap, in the order of insertion, and each counter is the
    last key handed out: a refused call uses up no account number and no
    transaction number. *)
Theorem X8_keys_are_consecutive (calls : list call) :
  consecutive_keys (run init_db calls).
Proof. apply reachable_consecutive_keys. Qed.

(** *** Records *)

(** X9: in every database a backend reaches, the [balance_after] of each
    record of an account is the balance that replaying the ledger gives
    right after that record, and the last one (or [0.0] for an account
    without records) is the stored balance of the account. *)
Theorem X9_balance_after (calls : list call) (account_no : Z) (r : Customer.row) :
  select_customer (run init_db calls) account_no = Some r ->
  map Transactions.balance_after (ledger (run init_db calls) account_no)
  = running_balances (ledger (run init_db calls) account_no)
  /\ last (map Transactions.balance_after (ledger (run init_db calls) account_no)) 0%float
     = Customer.balance r.
Proof.
  intros Hsel. pose proof (reachable_snapshots calls account_no) as Hsnap.
  split; [exact Hsnap|]. rewrite Hsnap.
  unfold running_balances. rewrite last_running_from.
  destruct (reachable_consistent calls) as (Hrep & _).
  apply select_customer_In in Hsel as (Hr & <-). apply (Hrep r Hr).
Qed.

Lemma X9_balance_after_demo :
  map Transactions.balance_after (ledger (run init_db demo) 1)
  = running_balances (ledger (run init_db demo) 1)
  /\ last (map Transactions.balance_after (ledger (run init_db demo) 1)) 0%float
     = 800%float.
Proof.
  apply (X9_balance_after demo 1 (john_doe 800)). vm_compute. reflexivity.
Defined.

(** X10: in every database a backend reaches, every transaction record is a
    Credit or a Debit, of an amount above zero, with a [balance_after] that
    is not negative, and it belongs to an account of the [customer] table,
    although the foreign key is not enforced. *)
Theorem X10_records_are_well_formed (calls : list call) (t : Transactions.row) :
  In t (transactions (run init_db calls)) ->
  well_formed_record t
  /\ In (Transactions.account_no t)
        (map Customer.account_no (customer (run init_db calls))).
Proof.
  intros Ht. split; [apply (records_well_formed calls t Ht)|].
  destruct (reachable_consistent calls) as (_ & _ & Hown & _). apply Hown, Ht.
Qed.

Lemma X10_records_are_well_formed_demo :
  well_formed_record
    (Transactions.Row 2 1 "Debit" 200 800 "2024-05-01T09:30:00.000417")
  /\ In 1 (map Customer.account_no (customer (run init_db demo))).
Proof.
  apply (X10_records_are_well_formed demo
           (Transactions.Row 2 1 "Debit" 200 800 "2024-05-01T09:30:00.000417")).
  vm_compute. right. left. reflexivity.
Defined.

(** *** What no call does *)

Lemma set_balance_same r : set_balance (Customer.balance r) r = r.
Proof. destruct r; reflexivity. Qed.

Lemma perform_keeps db c :
  (exists more, transactions (snd (perform db c)) = transactions db ++ more)
  /\ (exists more, map Customer.account_no (customer (snd (perform db c)))
                   = map Customer.account_no (customer db) ++ more)
  /\ (forall a r, select_customer db a = Some r ->
        exists balance, select_customer (snd (perform db c)) a = Some (set_balance balance r)).
Proof.
  destruct (perform_cases db c)
    as [->|[(n & m & e & h & k & i & Hins)
           |(k & a & amt & res & nb & dt & (_ & Hins & _))]].
  - split; [exists []; symmetry; apply app_nil_r|].
    split; [exists []; symmetry; apply app_nil_r|].
    intros a r Hsel. exists (Customer.balance r). rewrite set_balance_same. exact Hsel.
  - apply insert_customer_Some in Hins as (_ & _ & _ & _ & ->). simpl.
    split; [exists []; symmetry; apply app_nil_r|].
    split; [rewrite map_app; eauto|].
    intros a r Hsel. exists (Customer.balance r). rewrite set_balance_same.
    unfold select_customer in *. simpl. apply find_app_Some, Hsel.
  - split; [rewrite (post_transactions _ _ _ _ _ _ _ Hins); eauto|].
    split; [rewrite (post_keys _ _ _ _ _ _ _ Hins); exists []; symmetry; apply app_nil_r|].
    intros b r Hsel. rewrite (post_select _ _ _ _ _ _ _ _ Hins), Hsel. simpl.
    destruct (Customer.account_no r =? k); [eauto|].
    exists (Customer.balance r). rewrite set_balance_same. reflexivity.
Qed.

(** X11: no sequence of calls removes or alters a transaction record, and
    none removes an account or changes its name, mobile number, e-mail
    address, credential or category: the transactions and the account
    numbers of the database before are the front of those after, and every
    account reads as before up to its balance. *)
Theorem X11_nothing_is_removed (db : database) (calls : list call) :
  (exists more, transactions (run db calls) = transactions db ++ more)
  /\ (exists more, map Customer.account_no (customer (run db calls))
                   = map Customer.account_no (customer db) ++ more)
  /\ (forall a r, select_customer db a = Some r ->
        exists balance, select_customer (run db calls) a = Some (set_balance balance r)).
Proof.
  revert db. induction calls as [|c calls IH]; intros db; simpl.
  - split; [exists []; symmetry; apply app_nil_r|].
    split; [exists []; symmetry; apply app_nil_r|].
    intros a r Hsel. exists (Customer.balance r). rewrite set_balance_same. exact Hsel.
  - destruct (perform_keeps db c) as ((m1 & H1) & (k1 & K1) & S1).
    destruct (IH (snd (perform db c))) as ((m2 & H2) & (k2 & K2) & S2).
    split; [exists (m1 ++ m2); rewrite H2, H1, app_assoc; reflexivity|].
    split; [exists (k1 ++ k2); rewrite K2, K1, app_assoc; reflexivity|].
    intros a r Hsel. destruct (S1 a r Hsel) as (b1 & Hb1).
    destruct (S2 a _ Hb1) as (b2 & Hb2). exists b2. exact Hb2.
Qed.

Lemma X11_nothing_is_removed_demo :
  exists balance,
    select_customer (run (run init_db (firstn 1 demo)) (skipn 1 demo)) 1
    = Some (set_balance balance (john_doe 0)).
Proof.
  apply (X11_nothing_is_removed (run init_db (firstn 1 demo)) (skipn 1 demo)).
  vm_compute. reflexivity.
Defined.

Lemma posts_balance db db' account_no action_type amount result new_balance date_time :
  select_balance db account_no = Some result ->
  insert_transaction (update_balance db new_balance account_no)
    account_no action_type amount new_balance date_time = Some db' ->
  get_balance db' account_no = Some new_balance.
Proof.
  intros Hsel Hins. apply select_balance_Some in Hsel as (r & Hr & _).
  unfold get_balance, select_balance.
  rewrite (post_select_same _ _ _ _ _ _ _ _ Hins Hr). simpl.
  apply insert_transaction_Some in Hins as (_ & _ & Hnan & _).
  rewrite Hnan. reflexivity.
Qed.

(** X12: in any database, a [deposit] or a [withdraw] that returns [None]
    leaves the database as it was, and one that returns a balance has
    appended exactly one record, a Credit or a Debit of the amount with that
    balance as [balance_after], and made it the balance [get_balance]
    returns: the balance never changes without its record, nor the ledger
    without the balance. *)
Theorem X12_balance_and_record_together (date_time : string) (db : database)
    (account_no : Z) (amount : float) :
  (forall r db', deposit date_time db account_no amount = (r, db') ->
     match r with
     | None => db' = db
     | Some new_balance =>
         get_balance db' account_no = Some new_balance
         /\ exists id, transactions db'
              = transactions db
                ++ [Transactions.Row id account_no "Credit" amount new_balance date_time]
     end)
  /\ (forall r db', withdraw date_time db account_no amount = (r, db') ->
        match r with
        | None => db' = db
        | Some new_balance =>
            get_balance db' account_no = Some new_balance
            /\ exists id, transactions db'
                 = transactions db
                   ++ [Transactions.Row id account_no "Debit" amount new_balance date_time]
        end).
Proof.
  split; intros r db' H.
  - destruct (deposit_cases date_time db account_no amount)
      as [E|(result & db2 & Hsel & _ & Hins & E)]; rewrite E in H; injection H as <- <-.
    + reflexivity.
    + split; [apply (posts_balance _ _ _ _ _ _ _ _ Hsel Hins)|].
      rewrite (post_transactions _ _ _ _ _ _ _ Hins). eauto.
  - destruct (withdraw_cases date_time db account_no amount)
      as [E|(result & db2 & Hsel & _ & _ & Hins & E)]; rewrite E in H; injection H as <- <-.
    + reflexivity.
    + split; [apply (posts_balance _ _ _ _ _ _ _ _ Hsel Hins)|].
      rewrite (post_transactions _ _ _ _ _ _ _ Hins). eauto.
Qed.

(** X13: a [deposit] or a [withdraw] on one account changes nothing another
    account number can observe: its balance, the outcome of [authenticate]
    and its history are what they were. *)
Theorem X13_other_accounts_are_untouched (date_time : string) (db db' : database)
    (account_no other : Z) (amount : float) (pin : pin_value) (limit : option Z) :
  other <> account_no ->
  db' = snd (deposit date_time db account_no amount)
  \/ db' = snd (withdraw date_time db account_no amount) ->
  get_balance db' other = get_balance db other
  /\ authenticate db' other pin = authenticate db other pin
  /\ get_transaction_history db' other limit = get_transaction_history db other limit.
Proof.
  intros Hneq Hdb.
  assert (H : db' = db
              \/ exists action_type new_balance,
                   insert_transaction (update_balance db new_balance account_no)
                     account_no action_type amount new_balance date_time = Some db').
  { destruct Hdb as [-> | ->].
    - destruct (deposit_cases date_time db account_no amount)
        as [->|(result & db2 & _ & _ & Hins & ->)]; simpl; eauto.
    - destruct (withdraw_cases date_time db account_no amount)
        as [->|(result & db2 & _ & _ & _ & Hins & ->)]; simpl; eauto. }
  destruct H as [->|(action_type & new_balance & Hins)]; [auto|].
  pose proof (post_select_other _ _ _ _ _ _ _ _ Hins Hneq) as Hsel.
  assert (Hled : ledger db' other = ledger db other).
  { rewrite (post_ledger _ _ _ _ _ _ _ Hins).
    assert (E : (account_no =? other) = false) by (apply Z.eqb_neq; congruence).
    rewrite E. apply app_nil_r. }
  unfold get_balance, select_balance, authenticate, select_pin_hash.
  rewrite Hsel. split; [reflexivity|]. split; [reflexivity|].
  unfold get_transaction_history, select_history.
  change (filter _ (transactions db')) with (ledger db' other).
  rewrite Hled. reflexivity.
Qed.

Lemma X13_other_accounts_are_untouched_demo :
  fst (deposit "2024-05-01T09:31:00" (run init_db two_accounts) 2 5%float) = Some 5%float
  /\ get_balance (snd (deposit "2024-05-01T09:31:00" (run init_db two_accounts) 2 5%float)) 1
     = get_balance (run init_db two_accounts) 1
  /\ authenticate (snd (deposit "2024-05-01T09:31:00" (run init_db two_accounts) 2 5%float)) 1
       (PinInt 1234)
     = authenticate (run init_db two_accounts) 1 (PinInt 1234)
  /\ get_transaction_history
       (snd (deposit "2024-05-01T09:31:00" (run init_db two_accounts) 2 5%float)) 1 None
     = get_transaction_history (run init_db two_accounts) 1 None.
Proof.
  split; [vm_compute; reflexivity|].
  apply (X13_other_accounts_are_untouched "2024-05-01T09:31:00" (run init_db two_accounts)
           _ 2 1 5%float (PinInt 1234) None).
  - discriminate.
  - left. reflexivity.
Defined.

(** *** Histories *)

(** X14: for an account number and a limit SQLite can bind, the history of
    an account number that no row has is empty, not an error, in every
    database a backend reaches; and a limit of [0] gives an empty history in
    any database. *)
Theorem X14_empty_history (calls : list call) (account_no : Z) (limit : option Z) :
  sqlite_integer account_no ->
  sqlite_integer (match limit with Some n => n | None => 10 end) ->
  ~ In account_no (map Customer.account_no (customer (run init_db calls))) ->
  get_transaction_history (run init_db calls) account_no limit = []
  /\ forall db, get_transaction_history db account_no (Some 0) = [].
Proof.
  intros _ _ Hnot. split; [|reflexivity].
  destruct (reachable_consistent calls) as (_ & _ & Hown & _).
  unfold get_transaction_history, select_history.
  change (filter _ (transactions (run init_db calls)))
    with (ledger (run init_db calls) account_no).
  rewrite (fresh_ledger_empty _ _ Hown Hnot).
  unfold sql_limit. simpl. destruct (_ <? 0); [reflexivity | rewrite firstn_nil; reflexivity].
Qed.

Lemma X14_empty_history_demo :
  get_transaction_history (run init_db demo) 7 None = []
  /\ forall db, get_transaction_history db 7 (Some 0) = [].
Proof.
  apply (X14_empty_history demo 7 None); try (apply sqlite_integer_intro; reflexivity).
  vm_compute. intros [H|[]]. discriminate H.
Defined.

Lemma order_by_newest_last rows t :
  (forall x, In x rows ->
     (Transactions.date_time t <=? Transactions.date_time x)%string = false) ->
  order_by_date_time_desc (rows ++ [t]) = t :: order_by_date_time_desc rows.
Proof.
  induction rows as [|x rows IH]; intros H; [reflexivity|].
  simpl. rewrite IH by (intros y Hy; apply H; now right).
  simpl. rewrite (H x (or_introl eq_refl)). reflexivity.
Qed.

Lemma posts_history db db' account_no action_type amount new_balance date_time :
  insert_transaction (update_balance db new_balance account_no)
    account_no action_type amount new_balance date_time = Some db' ->
  (forall t, In t (ledger db account_no) ->
     (date_time <=? Transactions.date_time t)%string = false) ->
  exists id,
    full_history db' account_no
    = History.Entry id action_type amount new_balance date_time
      :: full_history db account_no
    /\ get_transaction_history db' account_no (Some 1)
       = [History.Entry id action_type amount new_balance date_time].
Proof.
  intros Hins Hnew.
  exists (next_rowid (seq_transactions db) (map Transactions.id (transactions db))).
  unfold full_history, get_transaction_history, select_history.
  change (filter _ (transactions db')) with (ledger db' account_no).
  change (filter _ (transactions db)) with (ledger db account_no).
  rewrite (post_ledger _ _ _ _ _ _ _ Hins), Z.eqb_refl.
  rewrite order_by_newest_last by exact Hnew.
  split; reflexivity.
Qed.

(** X15: when the time of a successful [deposit] or [withdraw] is later than
    the time of every record the account has, the new record heads the
    history of the account: the whole history is the new entry followed by
    the former history, and a history of limit [1] is the new entry alone,
    with the amount and the balance the call returned. *)
Theorem X15_latest_record_first (date_time : string) (db : database)
    (account_no : Z) (amount : float) :
  (forall t, In t (ledger db account_no) ->
     (date_time <=? Transactions.date_time t)%string = false) ->
  (forall new_balance db',
     deposit date_time db account_no amount = (Some new_balance, db') ->
     exists id,
       full_history db' account_no
       = History.Entry id "Credit" amount new_balance date_time
         :: full_history db account_no
       /\ get_transaction_history db' account_no (Some 1)
          = [History.Entry id "Credit" amount new_balance date_time])
  /\ (forall new_balance db',
        withdraw date_time db account_no amount = (Some new_balance, db') ->
        exists id,
          full_history db' account_no
          = History.Entry id "Debit" amount new_balance date_time
            :: full_history db account_no
          /\ get_transaction_history db' account_no (Some 1)
             = [History.Entry id "Debit" amount new_balance date_time]).
Proof.
  intros Hnew. split; intros new_balance db' H.
  - destruct (deposit_cases date_time db account_no amount)
      as [E|(result & db2 & _ & _ & Hins & E)]; rewrite E in H; [discriminate|].
    injection H as <- <-. apply (posts_history _ _ _ _ _ _ _ Hins Hnew).
  - destruct (withdraw_cases date_time db account_no amount)
      as [E|(result & db2 & _ & _ & _ & Hins & E)]; rewrite E in H; [discriminate|].
    injection H as <- <-. apply (posts_history _ _ _ _ _ _ _ Hins Hnew).
Qed.

Lemma X15_latest_record_first_demo :
  exists id,
    full_history (snd (withdraw "2024-05-01T09:31:00" (run init_db demo) 1 300%float)) 1
    = History.Entry id "Debit" 300 500 "2024-05-01T09:31:00"
      :: full_history (run init_db demo) 1
    /\ get_transaction_history
         (snd (withdraw "2024-05-01T09:31:00" (run init_db demo) 1 300%float)) 1 (Some 1)
       = [History.Entry id "Debit" 300 500 "2024-05-01T09:31:00"].
Proof.
  refine (proj2 (X15_latest_record_first "2024-05-01T09:31:00" (run init_db demo) 1
                   300%float _) 500%float _ _).
  - vm_compute. intros t [<-|[<-|[]]]; reflexivity.
  - vm_compute. reflexivity.
Defined.

(** *** Credentials *)

(** X16: the stored credential depends on nothing but the text of the PIN:
    two accounts opened with PINs of the same text, whenever and under
    whatever names, hold the same [pin_hash] ever after (the digest is not
    salted), and each of the two PINs authenticates on both accounts. *)
Theorem X16_equal_pins_equal_hashes (db1 db2 db3 : database)
    (name1 mobile1 email1 name2 mobile2 email2 : string) (p1 p2 : pin_value)
    (type1 type2 : option string) (a1 a2 : Z) (between later : list call) :
  create_account db1 name1 mobile1 email1 p1 type1 = (Some a1, db2) ->
  create_account (run db2 between) name2 mobile2 email2 p2 type2 = (Some a2, db3) ->
  str p1 = str p2 ->
  select_pin_hash (run db3 later) a1 = select_pin_hash (run db3 later) a2
  /\ authenticate (run db3 later) a1 p2 = true
  /\ authenticate (run db3 later) a2 p1 = true.
Proof.
  intros H1 H2 E.
  pose proof (run_pin_hash between _ _ _ (create_account_pin_hash _ _ _ _ _ _ _ _ H1)) as Hb.
  assert (Hc : select_pin_hash db3 a1 = Some (Sha256.hexdigest (str p1))).
  { pose proof (perform_pin_hash (run db2 between)
                  (CreateAccount name2 mobile2 email2 p2 type2) a1 _ Hb) as H.
    simpl in H. rewrite H2 in H. exact H. }
  pose proof (run_pin_hash later _ _ _ Hc) as Hl1.
  pose proof (run_pin_hash later _ _ _ (create_account_pin_hash _ _ _ _ _ _ _ _ H2)) as Hl2.
  unfold authenticate. rewrite Hl1, Hl2, E.
  split; [reflexivity|]. split; apply String.eqb_refl.
Qed.

Lemma X16_equal_pins_equal_hashes_demo :
  select_pin_hash (run init_db two_accounts) 1 = select_pin_hash (run init_db two_accounts) 2
  /\ authenticate (run init_db two_accounts) 1 (PinStr "1234") = true
  /\ authenticate (run init_db two_accounts) 2 (PinInt 1234) = true.
Proof.
  apply (X16_equal_pins_equal_hashes init_db (run init_db (firstn 1 demo))
           (run init_db two_accounts)
           "John Doe" "1234567890" "john@example.com" "Jane Roe" "5550100" "jane@example.com"
           (PinInt 1234) (PinStr "1234") None (Some "Current"%string) 1 2 (skipn 1 demo) []).
  - vm_compute. reflexivity.
  - vm_compute. reflexivity.
  - reflexivity.
Defined.
